(** * The FF-A memory-sharing proxy of the hypervisor

    A shallow embedding of the proxy that filters the FF-A calls of the host
    (the FF-A v1.0 proxy that follows include/trace/hooks/cgroup.h in the
    sources): [kvm_host_ffa_handler] and the functions below it.  The start-up
    negotiation, [hyp_ffa_init], is left out.

    The embedding is sequential: one call runs to completion on a [world]
    that holds the ownership record, the recorded host mailbox, the proxy's
    own mailbox, the downstream authority (the SPMD) and the traces of the
    calls made to the ownership engine and to the SPMD. *)

From Stdlib Require Import ZArith Lia ZifyBool Strings.Byte.
From stdpp Require Import base tactics option list list_numbers gmap.

Local Open Scope Z_scope.

(** ** Machine integers

    Registers are 64-bit; [DECLARE_REG(u32, ...)] truncates, a function that
    returns [int] truncates to 32 bits and reads the result as signed, and an
    [int] passed where a [u64] is expected is sign-extended. *)

Definition u32 (x : Z) : Z := x mod 2 ^ 32.
Definition u64 (x : Z) : Z := x mod 2 ^ 64.
Definition to_int (x : Z) : Z := (x + 2 ^ 31) mod 2 ^ 32 - 2 ^ 31.

(** [struct arm_smccc_res]: the four result registers of an SMC. *)
Record arm_smccc_res := SmcccRes { a0 : Z; a1 : Z; a2 : Z; a3 : Z }.

(** [struct kvm_cpu_context]: only the general-purpose registers are used. *)
Definition kvm_cpu_context := nat → Z.

Definition cpu_reg (ctxt : kvm_cpu_context) (r : nat) : Z := ctxt r.

Definition set_cpu_reg (ctxt : kvm_cpu_context) (r : nat) (v : Z)
  : kvm_cpu_context :=
  λ r', if Nat.eqb r' r then v else ctxt r'.

(** ** What the file takes from headers that are not part of the sources

    The function identifiers and return codes of <linux/arm_ffa.h>, the SMCCC
    field extractors of <linux/arm-smccc.h>, the page geometry and page
    macros, the layout of the memory-region descriptor, the hypervisor's
    address translation and [PACK_HANDLE] are parameters of the development.
    [ffa_v1_0] further down instantiates them with the values of the FF-A
    v1.0 binding, to run the model. *)

Class ffa_abi := FfaAbi {
  (* function identifiers *)
  FFA_ERROR : Z;
  FFA_SUCCESS : Z;
  FFA_FEATURES : Z;
  FFA_RXTX_MAP : Z;
  FFA_FN64_RXTX_MAP : Z;
  FFA_RXTX_UNMAP : Z;
  FFA_MSG_POLL : Z;
  FFA_MSG_WAIT : Z;
  FFA_MSG_SEND : Z;
  FFA_MSG_SEND_DIRECT_REQ : Z;
  FFA_MSG_SEND_DIRECT_RESP : Z;
  FFA_MEM_DONATE : Z;
  FFA_FN64_MEM_DONATE : Z;
  FFA_MEM_LEND : Z;
  FFA_FN64_MEM_LEND : Z;
  FFA_MEM_SHARE : Z;
  FFA_FN64_MEM_SHARE : Z;
  FFA_MEM_RETRIEVE_REQ : Z;
  FFA_FN64_MEM_RETRIEVE_REQ : Z;
  FFA_MEM_RETRIEVE_RESP : Z;
  FFA_MEM_RELINQUISH : Z;
  FFA_MEM_RECLAIM : Z;
  FFA_MEM_OP_PAUSE : Z;
  FFA_MEM_OP_RESUME : Z;
  FFA_MEM_FRAG_RX : Z;
  FFA_MEM_FRAG_TX : Z;
  (* return codes (values of type int) *)
  FFA_RET_SUCCESS : Z;
  FFA_RET_NOT_SUPPORTED : Z;
  FFA_RET_INVALID_PARAMETERS : Z;
  FFA_RET_DENIED : Z;
  FFA_RET_ABORTED : Z;
  (* SMCCC function-identifier fields *)
  ARM_SMCCC_IS_FAST_CALL : Z → bool;
  ARM_SMCCC_OWNER_NUM : Z → Z;
  ARM_SMCCC_FUNC_NUM : Z → Z;
  ARM_SMCCC_OWNER_STANDARD : Z;
  FFA_MIN_FUNC_NUM : Z;
  FFA_MAX_FUNC_NUM : Z;
  (* page geometry and page macros *)
  PAGE_SIZE : Z;
  PAGE_ALIGNED : Z → bool;
  FFA_PAGE_SIZE : Z;
  KVM_FFA_MBOX_NR_PAGES : Z;
  (* layout of the memory-region descriptor *)
  sizeof_ffa_mem_region : Z;
  sizeof_ffa_mem_region_attributes : Z;
  sizeof_ffa_composite_mem_region : Z;
  sizeof_ffa_mem_region_addr_range : Z;
  offsetof_sender_id : Z;             (* u16 in struct ffa_mem_region *)
  offsetof_handle : Z;                (* u64 in struct ffa_mem_region *)
  offsetof_ep_count : Z;              (* u32 in struct ffa_mem_region *)
  offsetof_ep_mem_access : Z;         (* flexible array of attributes *)
  offsetof_composite_off : Z;         (* u32 in ..._attributes *)
  offsetof_addr_range_cnt : Z;        (* u32 in ..._composite_mem_region *)
  offsetof_constituents : Z;          (* flexible array of ranges *)
  offsetof_address : Z;               (* u64 in ..._addr_range *)
  offsetof_pg_cnt : Z;                (* u32 in ..._addr_range *)
  (* address translation of the hypervisor *)
  hyp_phys_to_virt : Z → Z;
  hyp_virt_to_phys : Z → Z;
  hyp_phys_to_pfn : Z → Z;
  hyp_virt_to_pfn : Z → Z;
  (* the 64-bit handle made of its two 32-bit halves, low half first *)
  PACK_HANDLE : Z → Z → Z
}.

(** "ID value 0 must be returned at the Non-secure physical FF-A instance" *)
Definition HOST_FFA_ID : Z := 0.

(** ** Bytes in a mailbox

    A mailbox is the list of its bytes.  Fields are little-endian.  A byte
    past the end of the list reads as zero: [do_ffa_mem_xfer] checks its
    offsets against the fragment before it reads, [do_ffa_mem_reclaim] trusts
    the SPMD for the range array. *)

Definition byte_at (buf : list byte) (off : Z) : Z :=
  if off <? 0 then 0
  else match buf !! Z.to_nat off with
       | Some b => Z.of_N (Byte.to_N b)
       | None => 0
       end.

Fixpoint load_le (buf : list byte) (off : Z) (nbytes : nat) : Z :=
  match nbytes with
  | O => 0
  | S n => byte_at buf off + 2 ^ 8 * load_le buf (off + 1) n
  end.

Definition load_u16 (buf : list byte) (off : Z) : Z := load_le buf off 2.
Definition load_u32 (buf : list byte) (off : Z) : Z := load_le buf off 4.
Definition load_u64 (buf : list byte) (off : Z) : Z := load_le buf off 8.

Definition byte_of_Z (x : Z) : byte :=
  match Byte.of_N (Z.to_N (x mod 2 ^ 8)) with
  | Some b => b
  | None => "000"%byte
  end.

Fixpoint bytes_le (x : Z) (nbytes : nat) : list byte :=
  match nbytes with
  | O => []
  | S n => byte_of_Z x :: bytes_le (x / 2 ^ 8) n
  end.

(** Overwrite [buf] from offset [off] on with [bs]; the length of [buf]
    does not change. *)
Definition store_bytes (buf : list byte) (off : Z) (bs : list byte)
  : list byte :=
  list_inserts (Z.to_nat off) bs buf.

(** [memcpy(dst, src, n)] on the contents of two buffers. *)
Definition memcpy (dst src : list byte) (n : Z) : list byte :=
  store_bytes dst 0 (take (Z.to_nat n) src).

(** [struct ffa_mem_region_addr_range] *)
Record ffa_mem_region_addr_range := AddrRange { address : Z; pg_cnt : Z }.

(** ** The ownership record and its engine

    The ownership table, [__pkvm_host_share_ffa] and its three siblings live
    in the stage-2 page-table manager, outside the sources; they are modelled
    from the specification of the interface. *)

(** Modelled from the spec: the state the ownership record keeps for a page,
    "host-owned-only, shared-with-downstream, or lent-with-downstream", and,
    for the mailbox pages, granted to the privileged domain.  A page that the
    record does not list is not the host's to give. *)
Inductive page_state :=
  | HostOwned
  | SharedDownstream
  | LentDownstream
  | GrantedPrivileged.

#[global] Instance page_state_eq_dec : EqDecision page_state.
Proof. solve_decision. Defined.

Definition set_pages (st : page_state) (ps : list Z) (o : gmap Z page_state)
  : gmap Z page_state :=
  foldr (λ p acc, <[p := st]> acc) o ps.

(** Modelled from the spec: an operation of the ownership table,
    "share_page(pfn, count) -> ok|fail" and the like, "all individually
    reversible".  The operation succeeds when every page of the range is in
    state [from], and then moves them all to state [to]; otherwise it fails
    and leaves the record as it was. *)
Definition page_transition (from to : page_state) (pfn count : Z)
    (o : gmap Z page_state) : option (gmap Z page_state) :=
  if decide (Forall (λ p, o !! p = Some from) (seqZ pfn count))
  then Some (set_pages to (seqZ pfn count) o)
  else None.

(** Modelled from the spec: "share_page(pfn, count)" marks host-owned pages
    shared with the downstream, and "unshare_page(pfn, count)" takes that
    back. *)
Definition share_page (pfn count : Z)
  : gmap Z page_state → option (gmap Z page_state) :=
  page_transition HostOwned SharedDownstream pfn count.
Definition unshare_page (pfn count : Z)
  : gmap Z page_state → option (gmap Z page_state) :=
  page_transition SharedDownstream HostOwned pfn count.

(** Modelled from the spec: "grant_to_privileged(pfn)" gives the privileged
    domain access to one host-owned page, and "revoke_from_privileged(pfn)"
    takes that back. *)
Definition grant_to_privileged (pfn : Z)
  : gmap Z page_state → option (gmap Z page_state) :=
  page_transition HostOwned GrantedPrivileged pfn 1.
Definition revoke_from_privileged (pfn : Z)
  : gmap Z page_state → option (gmap Z page_state) :=
  page_transition GrantedPrivileged HostOwned pfn 1.

(** A call to the ownership engine, as it appears in the trace. *)
Inductive engine_op := OpShareFfa | OpUnshareFfa | OpShareHyp | OpUnshareHyp.

Record engine_call := EngineCall {
  ec_op : engine_op;
  ec_pfn : Z;
  ec_npages : Z;
  ec_ok : bool
}.

Definition engine_apply (op : engine_op) (pfn npages : Z)
    : gmap Z page_state → option (gmap Z page_state) :=
  match op with
  | OpShareFfa => share_page pfn npages
  | OpUnshareFfa => unshare_page pfn npages
  | OpShareHyp => grant_to_privileged pfn
  | OpUnshareHyp => revoke_from_privileged pfn
  end.

(** The operation that takes back what an operation did. *)
Definition engine_undo (op : engine_op) : engine_op :=
  match op with
  | OpShareFfa => OpUnshareFfa
  | OpUnshareFfa => OpShareFfa
  | OpShareHyp => OpUnshareHyp
  | OpUnshareHyp => OpShareHyp
  end.

(** ** The world a call runs in *)

(** [struct kvm_ffa_buffers]: the lock and the two mailbox pointers; a null
    pointer is 0. *)
Record kvm_ffa_buffers := KvmFfaBuffers {
  ffa_lock : bool;
  ffa_tx : Z;
  ffa_rx : Z
}.

Record world {SPMD : Type} := World {
  own : gmap Z page_state;          (* the ownership record, by pfn *)
  engine_log : list engine_call;    (* calls made to the ownership engine *)
  host_kvm_ffa : kvm_ffa_buffers;   (* host_kvm.ffa: the host's mailbox *)
  ffa_buffers : kvm_ffa_buffers;    (* the proxy's own mailbox: pointers *)
  hyp_tx : list byte;               (* the bytes at ffa_buffers.tx *)
  hyp_rx : list byte;               (* the bytes at ffa_buffers.rx *)
  host_mem : Z → list byte;         (* host memory, read at a hyp address *)
  spmd : SPMD;                      (* the state of the downstream authority *)
  smc_log : list (list Z);          (* SMCs issued, oldest first *)
  warnings : nat                    (* WARN_ONs that fired *)
}.
Arguments world : clear implicits.

Section Proxy.
Context `{!ffa_abi} {SPMD : Type}.

(** The downstream authority answers an SMC from its own state, the eight
    argument registers and the two mailboxes it has mapped; it returns its new
    state, the result registers and the new contents of the RX mailbox.  It
    never writes the TX mailbox. *)
Context (spmd_smc : SPMD → list Z → list byte → list byte →
                    SPMD * arm_smccc_res * list byte).

(** A computation of the proxy: state passing over the [world]. *)
Definition M (A : Type) : Type := world SPMD → A * world SPMD.

#[global] Instance M_ret : MRet M := λ A x w, (x, w).
#[global] Instance M_bind : MBind M :=
  λ A B f m w, let '(x, w') := m w in f x w'.

Definition gets {A} (f : world SPMD → A) : M A := λ w, (f w, w).
Definition modify (f : world SPMD → world SPMD) : M unit := λ w, (tt, f w).

Definition with_engine (o : gmap Z page_state) (l : list engine_call)
    (w : world SPMD) : world SPMD :=
  {| own := o; engine_log := l; host_kvm_ffa := host_kvm_ffa w;
     ffa_buffers := ffa_buffers w; hyp_tx := hyp_tx w; hyp_rx := hyp_rx w;
     host_mem := host_mem w; spmd := spmd w; smc_log := smc_log w;
     warnings := warnings w |}.

Definition with_host_kvm_ffa (b : kvm_ffa_buffers) (w : world SPMD)
  : world SPMD :=
  {| own := own w; engine_log := engine_log w; host_kvm_ffa := b;
     ffa_buffers := ffa_buffers w; hyp_tx := hyp_tx w; hyp_rx := hyp_rx w;
     host_mem := host_mem w; spmd := spmd w; smc_log := smc_log w;
     warnings := warnings w |}.

Definition with_hyp_tx (bs : list byte) (w : world SPMD) : world SPMD :=
  {| own := own w; engine_log := engine_log w; host_kvm_ffa := host_kvm_ffa w;
     ffa_buffers := ffa_buffers w; hyp_tx := bs; hyp_rx := hyp_rx w;
     host_mem := host_mem w; spmd := spmd w; smc_log := smc_log w;
     warnings := warnings w |}.

Definition with_smc (s : SPMD) (rx : list byte) (call : list Z)
    (w : world SPMD) : world SPMD :=
  {| own := own w; engine_log := engine_log w; host_kvm_ffa := host_kvm_ffa w;
     ffa_buffers := ffa_buffers w; hyp_tx := hyp_tx w; hyp_rx := rx;
     host_mem := host_mem w; spmd := s; smc_log := smc_log w ++ [call];
     warnings := warnings w |}.

Definition with_warning (w : world SPMD) : world SPMD :=
  {| own := own w; engine_log := engine_log w; host_kvm_ffa := host_kvm_ffa w;
     ffa_buffers := ffa_buffers w; hyp_tx := hyp_tx w; hyp_rx := hyp_rx w;
     host_mem := host_mem w; spmd := spmd w; smc_log := smc_log w;
     warnings := S (warnings w) |}.

(** [hyp_spin_lock(&host_kvm.ffa.lock)] and its unlock.  The embedding is
    sequential, so the lock is only a flag. *)
Definition set_host_lock (b : bool) : M unit :=
  modify (λ w, with_host_kvm_ffa
                 {| ffa_lock := b; ffa_tx := ffa_tx (host_kvm_ffa w);
                    ffa_rx := ffa_rx (host_kvm_ffa w) |} w).
Definition hyp_spin_lock : M unit := set_host_lock true.
Definition hyp_spin_unlock : M unit := set_host_lock false.

Definition set_host_tx (p : Z) : M unit :=
  modify (λ w, with_host_kvm_ffa
                 {| ffa_lock := ffa_lock (host_kvm_ffa w); ffa_tx := p;
                    ffa_rx := ffa_rx (host_kvm_ffa w) |} w).
Definition set_host_rx (p : Z) : M unit :=
  modify (λ w, with_host_kvm_ffa
                 {| ffa_lock := ffa_lock (host_kvm_ffa w);
                    ffa_tx := ffa_tx (host_kvm_ffa w); ffa_rx := p |} w).

(** Modelled from the spec: [WARN_ON] of the hypervisor, which is not in the
    sources.  It evaluates its argument, reports when it is non-zero ("logged
    as a loud warning") and lets the call go on. *)
Definition WARN_ON (cond : M Z) : M bool :=
  c ← cond;
  if negb (c =? 0) then modify with_warning ;; mret true else mret false.

(** [arm_smccc_1_1_smc(a0, ..., a7, &res)] *)
Definition arm_smccc_1_1_smc (args : list Z) : M arm_smccc_res :=
  λ w, let '(s', res, rx') := spmd_smc (spmd w) args (hyp_tx w) (hyp_rx w) in
       (res, with_smc s' rx' args w).

(** Modelled from the spec: a call of the four operations of the ownership
    table.  It returns 0 for "ok" and a negative errno for "fail". *)
Definition engine_call_op (op : engine_op) (pfn npages : Z) : M Z :=
  λ w, match engine_apply op pfn npages (own w) with
       | Some o' =>
           (0, with_engine o'
                 (engine_log w ++ [EngineCall op pfn npages true]) w)
       | None =>
           (-1, with_engine (own w)
                  (engine_log w ++ [EngineCall op pfn npages false]) w)
       end.

Definition __pkvm_host_share_ffa (pfn nr_pages : Z) : M Z :=
  engine_call_op OpShareFfa pfn nr_pages.
Definition __pkvm_host_unshare_ffa (pfn nr_pages : Z) : M Z :=
  engine_call_op OpUnshareFfa pfn nr_pages.
Definition __pkvm_host_share_hyp (pfn : Z) : M Z :=
  engine_call_op OpShareHyp pfn 1.
Definition __pkvm_host_unshare_hyp (pfn : Z) : M Z :=
  engine_call_op OpUnshareHyp pfn 1.

(** ** The proxy *)

Definition ffa_to_smccc_error (ffa_errno : Z) : arm_smccc_res :=
  {| a0 := FFA_ERROR; a1 := 0; a2 := u64 ffa_errno; a3 := 0 |}.

Definition ffa_to_smccc_res_prop (ret : Z) (prop : Z) : arm_smccc_res :=
  if ret =? FFA_RET_SUCCESS
  then {| a0 := FFA_SUCCESS; a1 := 0; a2 := prop; a3 := 0 |}
  else ffa_to_smccc_error ret.

Definition ffa_to_smccc_res (ret : Z) : arm_smccc_res :=
  ffa_to_smccc_res_prop ret 0.

Definition ffa_set_retval (ctxt : kvm_cpu_context) (res : arm_smccc_res)
  : kvm_cpu_context :=
  let ctxt := set_cpu_reg ctxt 0 (a0 res) in
  let ctxt := set_cpu_reg ctxt 1 (a1 res) in
  let ctxt := set_cpu_reg ctxt 2 (a2 res) in
  set_cpu_reg ctxt 3 (a3 res).

Definition is_ffa_call (func_id : Z) : bool :=
  ARM_SMCCC_IS_FAST_CALL func_id &&
  (ARM_SMCCC_OWNER_NUM func_id =? ARM_SMCCC_OWNER_STANDARD) &&
  (ARM_SMCCC_FUNC_NUM func_id >=? FFA_MIN_FUNC_NUM) &&
  (ARM_SMCCC_FUNC_NUM func_id <=? FFA_MAX_FUNC_NUM).

Definition spmd_map_ffa_buffers (ffa_page_count : Z) : M Z :=
  bufs ← gets ffa_buffers;
  res ← arm_smccc_1_1_smc
          [FFA_FN64_RXTX_MAP; hyp_virt_to_phys (ffa_tx bufs);
           hyp_virt_to_phys (ffa_rx bufs); ffa_page_count; 0; 0; 0; 0];
  mret (to_int (if a0 res =? FFA_SUCCESS then FFA_RET_SUCCESS else a2 res)).

Definition spmd_unmap_ffa_buffers : M Z :=
  res ← arm_smccc_1_1_smc [FFA_RXTX_UNMAP; HOST_FFA_ID; 0; 0; 0; 0; 0; 0];
  mret (to_int (if a0 res =? FFA_SUCCESS then FFA_RET_SUCCESS else a2 res)).

Definition spmd_mem_xfer (func_id len fraglen : Z) : M arm_smccc_res :=
  arm_smccc_1_1_smc [func_id; len; fraglen; 0; 0; 0; 0; 0].

Definition spmd_mem_reclaim (handle_lo handle_hi flags : Z)
  : M arm_smccc_res :=
  arm_smccc_1_1_smc [FFA_MEM_RECLAIM; handle_lo; handle_hi; flags; 0; 0; 0; 0].

Definition spmd_retrieve_req (len : Z) : M arm_smccc_res :=
  arm_smccc_1_1_smc [FFA_FN64_MEM_RETRIEVE_REQ; len; len; 0; 0; 0; 0; 0].

(** The number of pages and the first page frame of a constituent range, as
    both range walkers compute them.  [pg_cnt] is a u32 and [FFA_PAGE_SIZE] an
    int constant, so the product is taken on 32 bits. *)
Definition range_npages (range : ffa_mem_region_addr_range) : Z :=
  u32 (pg_cnt range * FFA_PAGE_SIZE) / PAGE_SIZE.
Definition range_pfn (range : ffa_mem_region_addr_range) : Z :=
  hyp_phys_to_pfn (address range).

(** The loop of [__ffa_host_share_ranges], from index [i] with [todo]
    iterations left ([nranges - i]).  [ranges] is the array the pointer
    designates, indexed from 0. *)
Fixpoint share_ranges_from (ranges : Z → ffa_mem_region_addr_range)
    (i : Z) (todo : nat) : M Z :=
  match todo with
  | O => mret i
  | S todo' =>
      let range := ranges i in
      let npages := range_npages range in
      let pfn := range_pfn range in
      r ← __pkvm_host_share_ffa pfn npages;
      if negb (r =? 0) then mret i
      else share_ranges_from ranges (i + 1) todo'
  end.

Definition __ffa_host_share_ranges (ranges : Z → ffa_mem_region_addr_range)
    (nranges : Z) : M Z :=
  share_ranges_from ranges 0 (Z.to_nat nranges).

Fixpoint unshare_ranges_from (ranges : Z → ffa_mem_region_addr_range)
    (i : Z) (todo : nat) : M Z :=
  match todo with
  | O => mret i
  | S todo' =>
      let range := ranges i in
      let npages := range_npages range in
      let pfn := range_pfn range in
      r ← __pkvm_host_unshare_ffa pfn npages;
      if negb (r =? 0) then mret i
      else unshare_ranges_from ranges (i + 1) todo'
  end.

Definition __ffa_host_unshare_ranges (ranges : Z → ffa_mem_region_addr_range)
    (nranges : Z) : M Z :=
  unshare_ranges_from ranges 0 (Z.to_nat nranges).

Definition ffa_host_share_ranges (ranges : Z → ffa_mem_region_addr_range)
    (nranges : Z) : M Z :=
  nshared ← __ffa_host_share_ranges ranges nranges;
  if negb (nshared =? nranges)
  then WARN_ON (__ffa_host_unshare_ranges ranges nshared) ;;
       mret FFA_RET_DENIED
  else mret 0.

Definition ffa_host_unshare_ranges (ranges : Z → ffa_mem_region_addr_range)
    (nranges : Z) : M Z :=
  nunshared ← __ffa_host_unshare_ranges ranges nranges;
  if negb (nunshared =? nranges)
  then WARN_ON (__ffa_host_share_ranges ranges nunshared) ;;
       mret FFA_RET_DENIED
  else mret 0.

(** *** The RX/TX mailbox *)

(** The labels of [do_ffa_rxtx_map], from the last to the first. *)
Definition rxtx_out (ret : Z) : M arm_smccc_res :=
  mret (ffa_to_smccc_res ret).
Definition rxtx_out_unlock (ret : Z) : M arm_smccc_res :=
  hyp_spin_unlock ;; rxtx_out ret.
Definition rxtx_map_err_unmap (ret : Z) : M arm_smccc_res :=
  spmd_unmap_ffa_buffers ;; rxtx_out_unlock ret.
Definition rxtx_map_err_unshare_tx (tx : Z) (ret : Z) : M arm_smccc_res :=
  __pkvm_host_unshare_hyp (hyp_phys_to_pfn tx) ;; rxtx_map_err_unmap ret.

Definition do_ffa_rxtx_map (ctxt : kvm_cpu_context) : M arm_smccc_res :=
  let tx := cpu_reg ctxt 1 in
  let rx := cpu_reg ctxt 2 in
  let npages := u32 (cpu_reg ctxt 3) in
  if negb (npages =? (KVM_FFA_MBOX_NR_PAGES * PAGE_SIZE) / FFA_PAGE_SIZE)
  then rxtx_out FFA_RET_INVALID_PARAMETERS
  else if negb (PAGE_ALIGNED tx) || negb (PAGE_ALIGNED rx)
  then rxtx_out FFA_RET_INVALID_PARAMETERS
  else
    hyp_spin_lock ;;
    host ← gets host_kvm_ffa;
    if negb (ffa_tx host =? 0) then rxtx_out_unlock FFA_RET_DENIED
    else
      ret ← spmd_map_ffa_buffers npages;
      if negb (ret =? 0) then rxtx_out_unlock ret
      else
        ret ← __pkvm_host_share_hyp (hyp_phys_to_pfn tx);
        if negb (ret =? 0)
        then rxtx_map_err_unmap FFA_RET_INVALID_PARAMETERS
        else
          ret ← __pkvm_host_share_hyp (hyp_phys_to_pfn rx);
          if negb (ret =? 0)
          then rxtx_map_err_unshare_tx tx FFA_RET_INVALID_PARAMETERS
          else
            set_host_tx (hyp_phys_to_virt tx) ;;
            set_host_rx (hyp_phys_to_virt rx) ;;
            rxtx_out_unlock ret.

Definition do_ffa_rxtx_unmap (ctxt : kvm_cpu_context) : M arm_smccc_res :=
  let id := u32 (cpu_reg ctxt 1) in
  if negb (id =? HOST_FFA_ID) then rxtx_out FFA_RET_INVALID_PARAMETERS
  else
    hyp_spin_lock ;;
    host ← gets host_kvm_ffa;
    if ffa_tx host =? 0 then rxtx_out_unlock FFA_RET_INVALID_PARAMETERS
    else
      WARN_ON (__pkvm_host_unshare_hyp (hyp_virt_to_pfn (ffa_tx host))) ;;
      set_host_tx 0 ;;
      host ← gets host_kvm_ffa;
      WARN_ON (__pkvm_host_unshare_hyp (hyp_virt_to_pfn (ffa_rx host))) ;;
      set_host_rx 0 ;;
      spmd_unmap_ffa_buffers ;;
      rxtx_out_unlock 0.

(** *** Memory transfers *)

(** Fields of a [struct ffa_mem_region] at the start of a mailbox, and of the
    [struct ffa_composite_mem_region] at byte offset [reg] in it. *)
Definition mem_region_sender_id (buf : list byte) : Z :=
  load_u16 buf offsetof_sender_id.
Definition mem_region_ep_count (buf : list byte) : Z :=
  load_u32 buf offsetof_ep_count.
Definition mem_region_composite_off (buf : list byte) : Z :=
  load_u32 buf (offsetof_ep_mem_access + offsetof_composite_off).
Definition reg_addr_range_cnt (buf : list byte) (reg : Z) : Z :=
  load_u32 buf (reg + offsetof_addr_range_cnt).
Definition reg_constituents (buf : list byte) (reg : Z)
  : Z → ffa_mem_region_addr_range :=
  λ i, let at_ := reg + offsetof_constituents
                  + i * sizeof_ffa_mem_region_addr_range in
       {| address := load_u64 buf (at_ + offsetof_address);
          pg_cnt := load_u32 buf (at_ + offsetof_pg_cnt) |}.

(** The labels [out] and [out_unlock] of [do_ffa_mem_xfer] and of
    [do_ffa_mem_reclaim]. *)
Definition mem_out (ret : Z) (res : arm_smccc_res) : M arm_smccc_res :=
  mret (if negb (ret =? 0) then ffa_to_smccc_res ret else res).
Definition mem_out_unlock (ret : Z) (res : arm_smccc_res) : M arm_smccc_res :=
  hyp_spin_unlock ;; mem_out ret res.

(** [do_ffa_mem_xfer]; [func_id] is [FFA_FN64_MEM_SHARE] or
    [FFA_FN64_MEM_LEND] (the BUILD_BUG_ON), [res] is the caller's result
    structure as it stands on entry. *)
Definition do_ffa_mem_xfer (func_id : Z) (res : arm_smccc_res)
    (ctxt : kvm_cpu_context) : M arm_smccc_res :=
  let len := u32 (cpu_reg ctxt 1) in
  let fraglen := u32 (cpu_reg ctxt 2) in
  let addr_mbz := cpu_reg ctxt 3 in
  let npages_mbz := u32 (cpu_reg ctxt 4) in
  if negb (addr_mbz =? 0) || negb (npages_mbz =? 0) || (fraglen >? len) ||
     (fraglen >? KVM_FFA_MBOX_NR_PAGES * PAGE_SIZE)
  then mem_out FFA_RET_INVALID_PARAMETERS res
  else if fraglen <? len
  then mem_out FFA_RET_ABORTED res
  else if fraglen <? sizeof_ffa_mem_region + sizeof_ffa_mem_region_attributes
  then mem_out FFA_RET_INVALID_PARAMETERS res
  else
    hyp_spin_lock ;;
    host ← gets host_kvm_ffa;
    if ffa_tx host =? 0
    then mem_out_unlock FFA_RET_INVALID_PARAMETERS res
    else
      modify (λ w, with_hyp_tx
                     (memcpy (hyp_tx w) (host_mem w (ffa_tx host)) fraglen) w) ;;
      buf ← gets hyp_tx;
      let offset := mem_region_composite_off buf in
      if (offset =? 0) || negb (mem_region_ep_count buf =? 1) ||
         negb (mem_region_sender_id buf =? HOST_FFA_ID)
      then mem_out_unlock FFA_RET_INVALID_PARAMETERS res
      else if fraglen <? offset + sizeof_ffa_composite_mem_region
      then mem_out_unlock FFA_RET_INVALID_PARAMETERS res
      else
        let reg := offset in
        if fraglen <? offset + sizeof_ffa_composite_mem_region +
                      reg_addr_range_cnt buf reg *
                      sizeof_ffa_mem_region_addr_range
        then mem_out_unlock FFA_RET_INVALID_PARAMETERS res
        else
          ret ← ffa_host_share_ranges (reg_constituents buf reg)
                                      (reg_addr_range_cnt buf reg);
          if negb (ret =? 0) then mem_out_unlock ret res
          else
            res ← spmd_mem_xfer func_id len fraglen;
            (if negb (a0 res =? FFA_SUCCESS)
             then buf ← gets hyp_tx;
                  WARN_ON (ffa_host_unshare_ranges
                             (reg_constituents buf reg)
                             (reg_addr_range_cnt buf reg)) ;;
                  mret tt
             else mret tt) ;;
            mem_out_unlock ret res.

(** The retrieve request [do_ffa_mem_reclaim] writes over the start of the
    TX mailbox: a zeroed [struct ffa_mem_region] with the sender and the
    handle set. *)
Definition retrieve_request (handle : Z) (buf : list byte) : list byte :=
  let buf := store_bytes buf 0
               (replicate (Z.to_nat sizeof_ffa_mem_region) "000"%byte) in
  let buf := store_bytes buf offsetof_sender_id (bytes_le HOST_FFA_ID 2) in
  store_bytes buf offsetof_handle (bytes_le handle 8).

Definition do_ffa_mem_reclaim (res : arm_smccc_res) (ctxt : kvm_cpu_context)
  : M arm_smccc_res :=
  let handle_lo := u32 (cpu_reg ctxt 1) in
  let handle_hi := u32 (cpu_reg ctxt 2) in
  let flags := u32 (cpu_reg ctxt 3) in
  let handle := PACK_HANDLE handle_lo handle_hi in
  hyp_spin_lock ;;
  modify (λ w, with_hyp_tx (retrieve_request handle (hyp_tx w)) w) ;;
  res ← spmd_retrieve_req sizeof_ffa_mem_region;
  buf ← gets hyp_rx;
  if negb (a0 res =? FFA_MEM_RETRIEVE_RESP) then mem_out_unlock 0 res
  else if negb (a1 res =? a2 res) then mem_out_unlock FFA_RET_ABORTED res
  else
    let offset := mem_region_composite_off buf in
    bogus ← WARN_ON (mret (if offset >? KVM_FFA_MBOX_NR_PAGES * PAGE_SIZE
                           then 1 else 0));
    if (bogus : bool) then mem_out_unlock FFA_RET_ABORTED res
    else
      let reg := offset in
      res ← spmd_mem_reclaim handle_lo handle_hi flags;
      if negb (a0 res =? FFA_SUCCESS) then mem_out_unlock 0 res
      else
        buf ← gets hyp_rx;
        WARN_ON (ffa_host_unshare_ranges (reg_constituents buf reg)
                                         (reg_addr_range_cnt buf reg)) ;;
        mem_out_unlock 0 res.

(** *** Dispatch *)

(** The case labels of [ffa_call_unsupported]. *)
Definition unsupported_calls : list Z :=
  [ (* Unsupported memory management calls *)
    FFA_FN64_MEM_RETRIEVE_REQ; FFA_MEM_RETRIEVE_RESP; FFA_MEM_RELINQUISH;
    FFA_MEM_OP_PAUSE; FFA_MEM_OP_RESUME; FFA_MEM_FRAG_RX; FFA_FN64_MEM_DONATE;
    (* Indirect message passing via RX/TX buffers *)
    FFA_MSG_SEND; FFA_MSG_POLL; FFA_MSG_WAIT;
    (* 32-bit variants of 64-bit calls *)
    FFA_MSG_SEND_DIRECT_REQ; FFA_MSG_SEND_DIRECT_RESP; FFA_RXTX_MAP;
    FFA_MEM_DONATE; FFA_MEM_RETRIEVE_REQ ].

Definition ffa_call_unsupported (func_id : Z) : bool :=
  bool_decide (func_id ∈ unsupported_calls).

(** The case labels of [kvm_host_ffa_handler] that have a handler. *)
Definition handled_calls : list Z :=
  [FFA_FEATURES; FFA_FN64_RXTX_MAP; FFA_RXTX_UNMAP; FFA_MEM_SHARE;
   FFA_FN64_MEM_SHARE; FFA_MEM_RECLAIM; FFA_MEM_LEND; FFA_FN64_MEM_LEND].

(** The case labels of the switch of [do_ffa_features]. *)
Definition transfer_calls : list Z :=
  [FFA_MEM_SHARE; FFA_FN64_MEM_SHARE; FFA_MEM_LEND; FFA_FN64_MEM_LEND].

(** [do_ffa_features] returns whether it handled the query, and [res]. *)
Definition do_ffa_features (res : arm_smccc_res) (ctxt : kvm_cpu_context)
  : bool * arm_smccc_res :=
  let id := u32 (cpu_reg ctxt 1) in
  if ffa_call_unsupported id
  then (true, ffa_to_smccc_res_prop FFA_RET_NOT_SUPPORTED 0)
  else if bool_decide (id ∈ transfer_calls)
  then (true, ffa_to_smccc_res_prop FFA_RET_SUCCESS 0) (* prop = 0 *)
  else (false, res).

(** [kvm_host_ffa_handler] returns whether the call was handled, and the
    host context.  [res] stands for the local result structure, which the C
    code leaves uninitialised. *)
Definition kvm_host_ffa_handler (res : arm_smccc_res)
    (host_ctxt : kvm_cpu_context) : M (bool * kvm_cpu_context) :=
  let func_id := cpu_reg host_ctxt 0 in
  let out_handled (res : arm_smccc_res) : M (bool * kvm_cpu_context) :=
    mret (true, ffa_set_retval host_ctxt res) in
  let after_switch : M (bool * kvm_cpu_context) :=
    if negb (ffa_call_unsupported func_id)
    then mret (false, host_ctxt) (* Pass through *)
    else out_handled (ffa_to_smccc_error FFA_RET_NOT_SUPPORTED) in
  if negb (is_ffa_call func_id) then mret (false, host_ctxt)
  else if func_id =? FFA_FEATURES then
    let '(handled, res) := do_ffa_features res host_ctxt in
    if negb handled then mret (false, host_ctxt) else out_handled res
  else if func_id =? FFA_FN64_RXTX_MAP then
    res ← do_ffa_rxtx_map host_ctxt; out_handled res
  else if func_id =? FFA_RXTX_UNMAP then
    res ← do_ffa_rxtx_unmap host_ctxt; out_handled res
  else if (func_id =? FFA_MEM_SHARE) || (func_id =? FFA_FN64_MEM_SHARE) then
    res ← do_ffa_mem_xfer FFA_FN64_MEM_SHARE res host_ctxt; out_handled res
  else if func_id =? FFA_MEM_RECLAIM then
    res ← do_ffa_mem_reclaim res host_ctxt; out_handled res
  else if (func_id =? FFA_MEM_LEND) || (func_id =? FFA_FN64_MEM_LEND) then
    res ← do_ffa_mem_xfer FFA_FN64_MEM_LEND res host_ctxt; out_handled res
  else if func_id =? FFA_MEM_FRAG_TX then after_switch (* break *)
  else after_switch.

(** ** Vocabulary of the statements *)

(** The entries [i], [i+1], ..., [i+k-1] of a range array. *)
Fixpoint ranges_slice (ranges : Z → ffa_mem_region_addr_range) (i : Z)
    (k : nat) : list ffa_mem_region_addr_range :=
  match k with
  | O => []
  | S k' => ranges i :: ranges_slice ranges (i + 1) k'
  end.

(** The shape the two range walkers share: the loop of
    [__ffa_host_share_ranges] for [OpShareFfa], that of
    [__ffa_host_unshare_ranges] for [OpUnshareFfa]. *)
Fixpoint walk_ranges_from (op : engine_op)
    (ranges : Z → ffa_mem_region_addr_range) (i : Z) (todo : nat) : M Z :=
  match todo with
  | O => mret i
  | S todo' =>
      r ← engine_call_op op (range_pfn (ranges i)) (range_npages (ranges i));
      if negb (r =? 0) then mret i
      else walk_ranges_from op ranges (i + 1) todo'
  end.

(** One operation of the ownership table applied to the ranges of a list,
    in order, on the ownership record alone; [None] when one of them fails. *)
Fixpoint engine_apply_all (op : engine_op)
    (rs : list ffa_mem_region_addr_range) (o : gmap Z page_state)
  : option (gmap Z page_state) :=
  match rs with
  | [] => Some o
  | r :: rs' =>
      o' ← engine_apply op (range_pfn r) (range_npages r) o;
      engine_apply_all op rs' o'
  end.

(** The trace entries of one operation over the ranges of a list. *)
Definition engine_calls (op : engine_op) (ok : bool)
    (rs : list ffa_mem_region_addr_range) : list engine_call :=
  (λ r, EngineCall op (range_pfn r) (range_npages r) ok) <$> rs.

(** The validation of the registers of a transfer, up to the point where the
    fragment is copied out of the host's mailbox. *)
Definition xfer_registers_ok (ctxt : kvm_cpu_context) : Prop :=
  cpu_reg ctxt 3 = 0 ∧ u32 (cpu_reg ctxt 4) = 0 ∧
  u32 (cpu_reg ctxt 2) = u32 (cpu_reg ctxt 1) ∧
  u32 (cpu_reg ctxt 2) ≤ KVM_FFA_MBOX_NR_PAGES * PAGE_SIZE ∧
  sizeof_ffa_mem_region + sizeof_ffa_mem_region_attributes
    ≤ u32 (cpu_reg ctxt 2).

(** The validation of the registers of a mailbox map request. *)
Definition rxtx_map_registers_ok (ctxt : kvm_cpu_context) : Prop :=
  u32 (cpu_reg ctxt 3) = (KVM_FFA_MBOX_NR_PAGES * PAGE_SIZE) / FFA_PAGE_SIZE ∧
  PAGE_ALIGNED (cpu_reg ctxt 1) = true ∧
  PAGE_ALIGNED (cpu_reg ctxt 2) = true.

(** The fragment as staged in the proxy's TX mailbox. *)
Definition staged (w : world SPMD) (ctxt : kvm_cpu_context) : list byte :=
  memcpy (hyp_tx w) (host_mem w (ffa_tx (host_kvm_ffa w)))
         (u32 (cpu_reg ctxt 2)).

(** The checks on the staged descriptor that precede the share. *)
Definition xfer_descriptor_ok (buf : list byte) (fraglen : Z) : Prop :=
  mem_region_composite_off buf ≠ 0 ∧
  mem_region_ep_count buf = 1 ∧
  mem_region_sender_id buf = HOST_FFA_ID ∧
  mem_region_composite_off buf + sizeof_ffa_composite_mem_region ≤ fraglen ∧
  mem_region_composite_off buf + sizeof_ffa_composite_mem_region
  + reg_addr_range_cnt buf (mem_region_composite_off buf)
    * sizeof_ffa_mem_region_addr_range ≤ fraglen.

(** The constituent ranges of the staged descriptor, as a list. *)
Definition staged_ranges (buf : list byte)
  : list ffa_mem_region_addr_range :=
  ranges_slice (reg_constituents buf (mem_region_composite_off buf)) 0
    (Z.to_nat (reg_addr_range_cnt buf (mem_region_composite_off buf))).

End Proxy.

(** What the statements need to know of the constants: the return codes are
    what the code takes them for (success is 0, the errors are not), success
    and error replies differ, the case labels of the dispatcher are distinct
    FF-A calls, as C requires of the labels of a switch, and the calls listed
    as unsupported are FF-A calls that are not among those labels. *)
Record ffa_abi_ok `{!ffa_abi} : Prop := FfaAbiOk {
  ret_success_zero : FFA_RET_SUCCESS = 0;
  ret_not_supported_nonzero : FFA_RET_NOT_SUPPORTED ≠ 0;
  ret_invalid_parameters_nonzero : FFA_RET_INVALID_PARAMETERS ≠ 0;
  ret_denied_nonzero : FFA_RET_DENIED ≠ 0;
  ret_aborted_nonzero : FFA_RET_ABORTED ≠ 0;
  success_not_error : FFA_SUCCESS ≠ FFA_ERROR;
  handled_distinct : NoDup (handled_calls ++ [FFA_MEM_FRAG_TX]);
  handled_are_ffa_calls :
    Forall (λ id, is_ffa_call id = true) (handled_calls ++ [FFA_MEM_FRAG_TX]);
  unsupported_are_ffa_calls :
    Forall (λ id, is_ffa_call id = true) unsupported_calls;
  unsupported_not_dispatched :
    Forall (λ id, id ∉ handled_calls ++ [FFA_MEM_FRAG_TX]) unsupported_calls
}.
Arguments ffa_abi_ok : clear implicits.

(** ** An instance to run the model on *)

(** The FF-A v1.0 binding on a 4 KiB-page kernel with a one-page mailbox:
    fast SMC32 calls are 0x84000000 + n, fast SMC64 calls 0xC4000000 + n,
    both owned by the standard service. *)
Definition FFA_SMC_32 (func_num : Z) : Z := 0x84000000 + func_num.
Definition FFA_SMC_64 (func_num : Z) : Z := 0xC4000000 + func_num.

Definition ffa_v1_0 : ffa_abi := {|
  FFA_ERROR := FFA_SMC_32 0x60;
  FFA_SUCCESS := FFA_SMC_32 0x61;
  FFA_FEATURES := FFA_SMC_32 0x64;
  FFA_RXTX_MAP := FFA_SMC_32 0x66;
  FFA_FN64_RXTX_MAP := FFA_SMC_64 0x66;
  FFA_RXTX_UNMAP := FFA_SMC_32 0x67;
  FFA_MSG_POLL := FFA_SMC_32 0x6A;
  FFA_MSG_WAIT := FFA_SMC_32 0x6B;
  FFA_MSG_SEND := FFA_SMC_32 0x6E;
  FFA_MSG_SEND_DIRECT_REQ := FFA_SMC_32 0x6F;
  FFA_MSG_SEND_DIRECT_RESP := FFA_SMC_32 0x70;
  FFA_MEM_DONATE := FFA_SMC_32 0x71;
  FFA_FN64_MEM_DONATE := FFA_SMC_64 0x71;
  FFA_MEM_LEND := FFA_SMC_32 0x72;
  FFA_FN64_MEM_LEND := FFA_SMC_64 0x72;
  FFA_MEM_SHARE := FFA_SMC_32 0x73;
  FFA_FN64_MEM_SHARE := FFA_SMC_64 0x73;
  FFA_MEM_RETRIEVE_REQ := FFA_SMC_32 0x74;
  FFA_FN64_MEM_RETRIEVE_REQ := FFA_SMC_64 0x74;
  FFA_MEM_RETRIEVE_RESP := FFA_SMC_32 0x75;
  FFA_MEM_RELINQUISH := FFA_SMC_32 0x76;
  FFA_MEM_RECLAIM := FFA_SMC_32 0x77;
  FFA_MEM_OP_PAUSE := FFA_SMC_32 0x78;
  FFA_MEM_OP_RESUME := FFA_SMC_32 0x79;
  FFA_MEM_FRAG_RX := FFA_SMC_32 0x7A;
  FFA_MEM_FRAG_TX := FFA_SMC_32 0x7B;
  FFA_RET_SUCCESS := 0;
  FFA_RET_NOT_SUPPORTED := -1;
  FFA_RET_INVALID_PARAMETERS := -2;
  FFA_RET_DENIED := -6;
  FFA_RET_ABORTED := -8;
  ARM_SMCCC_IS_FAST_CALL := λ x, Z.testbit x 31;
  ARM_SMCCC_OWNER_NUM := λ x, Z.land (Z.shiftr x 24) 0x3F;
  ARM_SMCCC_FUNC_NUM := λ x, Z.land x 0xFFFF;
  ARM_SMCCC_OWNER_STANDARD := 4;
  FFA_MIN_FUNC_NUM := 0x60;
  FFA_MAX_FUNC_NUM := 0x7F;
  PAGE_SIZE := Z.shiftl 1 12;
  PAGE_ALIGNED := λ x, Z.land x (Z.shiftl 1 12 - 1) =? 0;
  FFA_PAGE_SIZE := 0x1000;
  KVM_FFA_MBOX_NR_PAGES := 1;
  sizeof_ffa_mem_region := 32;
  sizeof_ffa_mem_region_attributes := 16;
  sizeof_ffa_composite_mem_region := 16;
  sizeof_ffa_mem_region_addr_range := 16;
  offsetof_sender_id := 0;
  offsetof_handle := 8;
  offsetof_ep_count := 28;
  offsetof_ep_mem_access := 32;
  offsetof_composite_off := 4;
  offsetof_addr_range_cnt := 4;
  offsetof_constituents := 16;
  offsetof_address := 0;
  offsetof_pg_cnt := 8;
  hyp_phys_to_virt := λ phys, u64 (phys + 0x8000000000);
  hyp_virt_to_phys := λ virt, u64 (virt - 0x8000000000);
  hyp_phys_to_pfn := λ phys, Z.shiftr phys 12;
  hyp_virt_to_pfn := λ virt, Z.shiftr (u64 (virt - 0x8000000000)) 12;
  PACK_HANDLE := λ l h, Z.lor (Z.shiftl (u32 h) 32) l
|}.

(** A downstream authority that plays a script: each SMC consumes the next
    reply, made of the result registers and the RX contents; once the script
    is over it answers 0 in every register and leaves RX alone. *)
Definition script := list (arm_smccc_res * list byte).

Definition scripted_smc (s : script) (args : list Z) (tx rx : list byte)
  : script * arm_smccc_res * list byte :=
  match s with
  | [] => ([], SmcccRes 0 0 0 0, rx)
  | (res, rx') :: s' => (s', res, rx')
  end.

(** A memory-region descriptor for one receiver and the given constituent
    ranges (address, page count), laid out as FF-A v1.0 has it, followed by
    zeros up to [size] bytes. *)
Definition descriptor_bytes (sender ep_count composite_off : Z)
    (ranges : list (Z * Z)) (size : nat) : list byte :=
  let buf := replicate size "000"%byte in
  let buf := store_bytes buf 0 (bytes_le sender 2) in
  let buf := store_bytes buf 28 (bytes_le ep_count 4) in
  let buf := store_bytes buf 36 (bytes_le composite_off 4) in
  let buf := store_bytes buf (composite_off + 4)
               (bytes_le (Z.of_nat (length ranges)) 4) in
  foldr (λ '(i, (addr, cnt)) buf,
           let at_ := composite_off + 16 + 16 * Z.of_nat i in
           store_bytes (store_bytes buf at_ (bytes_le addr 8))
                       (at_ + 8) (bytes_le cnt 4))
        buf (imap (λ i r, (i, r)) ranges).

(** Pages [first], ..., [first + count - 1] owned by the host alone. *)
Definition host_pages (first count : Z) : gmap Z page_state :=
  set_pages HostOwned (seqZ first count) ∅.

(** A world for the examples: nothing shared yet, empty traces. *)
Definition example_world (o : gmap Z page_state) (host : kvm_ffa_buffers)
    (host_tx_bytes : list byte) (s : script) : world script :=
  {| own := o; engine_log := [];
     host_kvm_ffa := host;
     ffa_buffers := {| ffa_lock := false; ffa_tx := 0x8000100000;
                       ffa_rx := 0x8000101000 |};
     hyp_tx := replicate 4096 "000"%byte;
     hyp_rx := replicate 4096 "000"%byte;
     host_mem := λ _, host_tx_bytes;
     spmd := s; smc_log := []; warnings := 0 |}.

(** Registers x0..x4 of a call; the others are 0. *)
Definition regs (x0 x1 x2 x3 x4 : Z) : kvm_cpu_context :=
  λ r, match r with
       | 0%nat => x0 | 1%nat => x1 | 2%nat => x2 | 3%nat => x3 | 4%nat => x4
       | _ => 0
       end.

(** *** Inputs of the examples *)

(** Three ranges: pages 5-6, page 9, and page 6 again. *)
Definition example_ranges : Z → ffa_mem_region_addr_range :=
  λ i, default (AddrRange 0 0)
         ([AddrRange 0x5000 2; AddrRange 0x9000 1; AddrRange 0x6000 1]
            !! Z.to_nat i).

Definition unmapped : kvm_ffa_buffers :=
  {| ffa_lock := false; ffa_tx := 0; ffa_rx := 0 |}.
Definition mapped : kvm_ffa_buffers :=
  {| ffa_lock := false; ffa_tx := 0x8000200000; ffa_rx := 0x8000201000 |}.

(** A well-formed 96-byte descriptor from the host (id 0) to one receiver,
    for page 5 and pages 9-10; the same with two receivers. *)
Definition example_descriptor : list byte :=
  descriptor_bytes 0 1 48 [(0x5000, 1); (0x9000, 2)] 4096.
Definition two_receiver_descriptor : list byte :=
  descriptor_bytes 0 2 48 [(0x5000, 1); (0x9000, 2)] 4096.

(** Replies of the downstream: success, "no memory", a fragmented retrieve
    response, an answer of zeros. *)
Definition reply_success : arm_smccc_res := SmcccRes (FFA_SMC_32 0x61) 0 0 0.
Definition reply_no_memory : arm_smccc_res :=
  SmcccRes (FFA_SMC_32 0x60) 0 (u64 (-3)) 0.
Definition reply_fragmented : arm_smccc_res :=
  SmcccRes (FFA_SMC_32 0x75) 96 48 0.
Definition res_zero : arm_smccc_res := SmcccRes 0 0 0 0.

(** The host owns pages 5 to 14; its mailbox is mapped or not; the script of
    the downstream varies. *)
Definition world_mapped (s : script) : world script :=
  example_world (host_pages 5 10) mapped example_descriptor s.
Definition world_unmapped (s : script) : world script :=
  example_world (host_pages 5 10) unmapped example_descriptor s.
Definition world_two_receivers : world script :=
  example_world (host_pages 5 10) mapped two_receiver_descriptor [].
(** The same with pages 5, 6 and 9 already shared downstream. *)
Definition world_shared : world script :=
  example_world
    (set_pages SharedDownstream [5; 6; 9] (host_pages 5 10)) mapped
    example_descriptor [].

(** What the host sees of a call: whether it was handled, and x0 and x2. *)
Definition x0_x2 (out : bool * kvm_cpu_context * world script)
  : bool * Z * Z :=
  (fst (fst out), cpu_reg (snd (fst out)) 0, cpu_reg (snd (fst out)) 2).

(** * Properties *)

(** ** The ownership table *)

Lemma lookup_set_pages (st : page_state) (ps : list Z)
    (o : gmap Z page_state) (p : Z) :
  set_pages st ps o !! p = if decide (p ∈ ps) then Some st else o !! p.
Proof.
  induction ps as [|q ps IH]; simpl.
  - destruct (decide (p ∈ [])) as [Hin|]; [by apply elem_of_nil in Hin | done].
  - destruct (decide (q = p)) as [->|Hne].
    + rewrite lookup_insert_eq, decide_True; [done | by left].
    + rewrite lookup_insert_ne, IH by done.
      destruct (decide (p ∈ ps)) as [Hin|Hnin].
      * rewrite decide_True; [done | by right].
      * rewrite decide_False; [done|].
        intros [->|Hin]%elem_of_cons; done.
Qed.

Lemma page_transition_Some (from to : page_state) (pfn count : Z)
    (o o' : gmap Z page_state) :
  page_transition from to pfn count o = Some o' ↔
  (∀ p, p ∈ seqZ pfn count → o !! p = Some from) ∧
  o' = set_pages to (seqZ pfn count) o.
Proof.
  unfold page_transition. rewrite <- Forall_forall.
  destruct (decide (Forall _ _)) as [Hall|Hnot]; split.
  - by intros [= <-].
  - by intros [_ ->].
  - done.
  - by intros [Hall _].
Qed.

(** A transition that succeeded is undone by the opposite transition over
    the same range. *)
Lemma page_transition_reverse (from to : page_state) (pfn count : Z)
    (o o' : gmap Z page_state) :
  page_transition from to pfn count o = Some o' →
  page_transition to from pfn count o' = Some o.
Proof.
  rewrite !page_transition_Some. intros [Hfrom ->]. split.
  - intros p Hp. rewrite lookup_set_pages. by rewrite decide_True.
  - apply map_eq. intros p. rewrite !lookup_set_pages.
    destruct (decide (p ∈ seqZ pfn count)); [by rewrite Hfrom | done].
Qed.

(** Two transitions of the same kind that succeed one after the other are
    over disjoint ranges, and succeed in the other order with the same
    result. *)
Lemma page_transition_swap (from to : page_state) (pfn1 n1 pfn2 n2 : Z)
    (o o1 o2 : gmap Z page_state) :
  from ≠ to →
  page_transition from to pfn1 n1 o = Some o1 →
  page_transition from to pfn2 n2 o1 = Some o2 →
  ∃ o1', page_transition from to pfn2 n2 o = Some o1' ∧
         page_transition from to pfn1 n1 o1' = Some o2.
Proof.
  intros Hne. rewrite !page_transition_Some. intros [H1 ->] [H2 ->].
  assert (Hdisj : ∀ p, p ∈ seqZ pfn2 n2 →
                       (p ∉ seqZ pfn1 n1) ∧ o !! p = Some from).
  { intros p Hp. specialize (H2 p Hp). rewrite lookup_set_pages in H2.
    destruct (decide (p ∈ seqZ pfn1 n1)); [congruence | done]. }
  exists (set_pages to (seqZ pfn2 n2) o). split.
  - apply page_transition_Some. split; [|done].
    intros p Hp. by apply Hdisj.
  - apply page_transition_Some. split.
    + intros p Hp. rewrite lookup_set_pages.
      destruct (decide (p ∈ seqZ pfn2 n2)) as [Hin|]; [|by apply H1].
      by destruct (Hdisj p Hin).
    + apply map_eq. intros p. rewrite !lookup_set_pages.
      by destruct (decide (p ∈ seqZ pfn1 n1)), (decide (p ∈ seqZ pfn2 n2)).
Qed.

Lemma engine_apply_reverse (op : engine_op) (pfn npages : Z)
    (o o' : gmap Z page_state) :
  engine_apply op pfn npages o = Some o' →
  engine_apply (engine_undo op) pfn npages o' = Some o.
Proof. destruct op; apply page_transition_reverse. Qed.

Lemma engine_apply_swap (op : engine_op) (pfn1 n1 pfn2 n2 : Z)
    (o o1 o2 : gmap Z page_state) :
  engine_apply op pfn1 n1 o = Some o1 →
  engine_apply op pfn2 n2 o1 = Some o2 →
  ∃ o1', engine_apply op pfn2 n2 o = Some o1' ∧
         engine_apply op pfn1 n1 o1' = Some o2.
Proof. destruct op; by apply page_transition_swap. Qed.

Lemma byte_at_nonneg (buf : list byte) (off : Z) : 0 ≤ byte_at buf off.
Proof.
  unfold byte_at. destruct (off <? 0); [done|].
  destruct (buf !! Z.to_nat off); lia.
Qed.

Lemma load_le_nonneg (buf : list byte) (off : Z) (nbytes : nat) :
  0 ≤ load_le buf off nbytes.
Proof.
  revert off. induction nbytes as [|n IH]; intros off; simpl; [done|].
  pose proof (byte_at_nonneg buf off). specialize (IH (off + 1)). lia.
Qed.

Section Properties.
Context `{!ffa_abi} {SPMD : Type}.
Context (spmd_smc : SPMD → list Z → list byte → list byte →
                    SPMD * arm_smccc_res * list byte).

Implicit Types (o : gmap Z page_state) (w : world SPMD).
Implicit Types (ranges : Z → ffa_mem_region_addr_range).
Implicit Types (rs : list ffa_mem_region_addr_range).
Implicit Types (ctxt : kvm_cpu_context) (res : arm_smccc_res).

Lemma engine_apply_all_cons op r rs o :
  engine_apply_all op (r :: rs) o =
  engine_apply op (range_pfn r) (range_npages r) o ≫= engine_apply_all op rs.
Proof. done. Qed.

(** The first operation of a run that succeeded can be taken back at the
    end of the run: what is left is the run without it. *)
Lemma engine_undo_first op r rs o o1 o' :
  engine_apply op (range_pfn r) (range_npages r) o = Some o1 →
  engine_apply_all op rs o1 = Some o' →
  ∃ o'', engine_apply (engine_undo op) (range_pfn r) (range_npages r) o'
         = Some o'' ∧
         engine_apply_all op rs o = Some o''.
Proof.
  revert o o1. induction rs as [|q rs IH]; intros o o1 Hr Hrs.
  - injection Hrs as <-. exists o. split; [|done].
    by apply engine_apply_reverse.
  - rewrite engine_apply_all_cons in Hrs.
    destruct (engine_apply op (range_pfn q) (range_npages q) o1)
      as [o2|] eqn:Hq; [simpl in Hrs | done].
    destruct (engine_apply_swap _ _ _ _ _ _ _ _ Hr Hq) as (o1' & Hq' & Hr').
    destruct (IH _ _ Hr' Hrs) as (o'' & Hundo & Hrest).
    exists o''. split; [done|].
    by rewrite engine_apply_all_cons, Hq'.
Qed.

(** Rolling back in forward order: after a run that succeeded, the opposite
    operations over the same ranges, first to last, all succeed and restore
    the ownership record. *)
Lemma engine_apply_all_reverse op rs o o' :
  engine_apply_all op rs o = Some o' →
  engine_apply_all (engine_undo op) rs o' = Some o.
Proof.
  revert o o'. induction rs as [|r rs IH]; intros o o' Hrs.
  - by injection Hrs as <-.
  - rewrite engine_apply_all_cons in Hrs.
    destruct (engine_apply op (range_pfn r) (range_npages r) o)
      as [o1|] eqn:Hr; [simpl in Hrs | done].
    destruct (engine_undo_first _ _ _ _ _ _ Hr Hrs) as (o'' & Hundo & Hrest).
    rewrite engine_apply_all_cons, Hundo. simpl. by apply IH.
Qed.

(** ** The range walkers *)

Lemma share_ranges_from_walk ranges i todo w :
  share_ranges_from ranges i todo w
  = walk_ranges_from OpShareFfa ranges i todo w.
Proof.
  revert i w. induction todo as [|todo IH]; intros i w; [done|].
  simpl. unfold mbind, M_bind, __pkvm_host_share_ffa.
  destruct (engine_call_op _ _ _ w) as [r w1].
  destruct (negb (r =? 0)); [done | apply IH].
Qed.

Lemma unshare_ranges_from_walk ranges i todo w :
  unshare_ranges_from ranges i todo w
  = walk_ranges_from OpUnshareFfa ranges i todo w.
Proof.
  revert i w. induction todo as [|todo IH]; intros i w; [done|].
  simpl. unfold mbind, M_bind, __pkvm_host_unshare_ffa.
  destruct (engine_call_op _ _ _ w) as [r w1].
  destruct (negb (r =? 0)); [done | apply IH].
Qed.

Lemma walk_ranges_all_ok op ranges todo i w o' :
  engine_apply_all op (ranges_slice ranges i todo) (own w) = Some o' →
  walk_ranges_from op ranges i todo w =
  (i + Z.of_nat todo,
   with_engine o'
     (engine_log w ++ engine_calls op true (ranges_slice ranges i todo)) w).
Proof.
  revert i w. induction todo as [|todo IH]; intros i w Hall.
  - injection Hall as <-. simpl. unfold mret, M_ret, engine_calls. simpl.
    rewrite Z.add_0_r, app_nil_r. by destruct w.
  - simpl in Hall.
    destruct (engine_apply op _ _ (own w)) as [o1|] eqn:H1;
      [simpl in Hall | done].
    cbn [walk_ranges_from]. unfold mbind, M_bind, engine_call_op. rewrite H1.
    cbn [negb Z.eqb]. rewrite IH by exact Hall. f_equal; [lia|].
    unfold with_engine, engine_calls; cbn. by rewrite <- app_assoc.
Qed.

Lemma walk_ranges_fails_at op ranges k todo i w o_k :
  (k < todo)%nat →
  engine_apply_all op (ranges_slice ranges i k) (own w) = Some o_k →
  engine_apply op (range_pfn (ranges (i + Z.of_nat k)))
               (range_npages (ranges (i + Z.of_nat k))) o_k = None →
  walk_ranges_from op ranges i todo w =
  (i + Z.of_nat k,
   with_engine o_k
     (engine_log w ++ engine_calls op true (ranges_slice ranges i k)
      ++ [EngineCall op (range_pfn (ranges (i + Z.of_nat k)))
                     (range_npages (ranges (i + Z.of_nat k))) false]) w).
Proof.
  revert todo i w. induction k as [|k IH]; intros todo i w Hlt Hall Hfail.
  - injection Hall as <-. destruct todo as [|todo]; [lia|].
    rewrite Z.add_0_r in *.
    cbn [walk_ranges_from]. unfold mbind, M_bind, engine_call_op.
    by rewrite Hfail.
  - destruct todo as [|todo]; [lia|]. simpl in Hall.
    destruct (engine_apply op _ _ (own w)) as [o1|] eqn:H1;
      [simpl in Hall | done].
    cbn [walk_ranges_from]. unfold mbind, M_bind, engine_call_op. rewrite H1.
    cbn [negb Z.eqb].
    replace (i + Z.of_nat (S k)) with (i + 1 + Z.of_nat k) in * by lia.
    rewrite (IH todo) by (lia || done).
    f_equal. unfold with_engine, engine_calls; cbn. by rewrite <- app_assoc.
Qed.

(** What one range walker followed by the other as rollback does when the
    first one stops at range [k]. *)
Lemma walk_then_rollback op ranges nranges k w o_k :
  (k < nranges)%nat →
  engine_apply_all op (ranges_slice ranges 0 k) (own w) = Some o_k →
  engine_apply op (range_pfn (ranges (Z.of_nat k)))
               (range_npages (ranges (Z.of_nat k))) o_k = None →
  ∃ w1, walk_ranges_from op ranges 0 nranges w = (Z.of_nat k, w1) ∧
  walk_ranges_from (engine_undo op) ranges 0 k w1 =
  (Z.of_nat k,
   with_engine (own w)
     (engine_log w ++ engine_calls op true (ranges_slice ranges 0 k)
      ++ [EngineCall op (range_pfn (ranges (Z.of_nat k)))
                     (range_npages (ranges (Z.of_nat k))) false]
      ++ engine_calls (engine_undo op) true (ranges_slice ranges 0 k)) w).
Proof.
  intros Hlt Hall Hfail. eexists. split.
  - by rewrite (walk_ranges_fails_at op ranges k nranges 0 w o_k).
  - rewrite (walk_ranges_all_ok _ _ _ _ _ (own w))
      by (by apply engine_apply_all_reverse).
    f_equal. unfold with_engine; cbn. by rewrite <- !app_assoc.
Qed.

(** C1: when marking the ranges shared fails first at range [k],
    [ffa_host_share_ranges] unshares the [k] ranges already shared, first to
    last, returns "denied", and leaves the ownership record as it was before
    the call; [ffa_host_unshare_ranges] does the same with the two operations
    exchanged. *)
Theorem ffa_host_ranges_rollback ranges (nranges : Z) (k : nat) w :
  Z.of_nat k < nranges →
  let first_k := ranges_slice ranges 0 k in
  let pfn_k := range_pfn (ranges (Z.of_nat k)) in
  let npages_k := range_npages (ranges (Z.of_nat k)) in
  (∀ o_k,
     engine_apply_all OpShareFfa first_k (own w) = Some o_k →
     share_page pfn_k npages_k o_k = None →
     let '(ret, w') := ffa_host_share_ranges ranges nranges w in
     ret = FFA_RET_DENIED ∧ own w' = own w ∧
     engine_log w' =
       engine_log w ++ engine_calls OpShareFfa true first_k
       ++ [EngineCall OpShareFfa pfn_k npages_k false]
       ++ engine_calls OpUnshareFfa true first_k) ∧
  (∀ o_k,
     engine_apply_all OpUnshareFfa first_k (own w) = Some o_k →
     unshare_page pfn_k npages_k o_k = None →
     let '(ret, w') := ffa_host_unshare_ranges ranges nranges w in
     ret = FFA_RET_DENIED ∧ own w' = own w ∧
     engine_log w' =
       engine_log w ++ engine_calls OpUnshareFfa true first_k
       ++ [EngineCall OpUnshareFfa pfn_k npages_k false]
       ++ engine_calls OpShareFfa true first_k).
Proof.
  intros Hk first_k pfn_k npages_k.
  assert (Hne : negb (Z.of_nat k =? nranges) = true) by lia.
  assert (Hlt : (k < Z.to_nat nranges)%nat) by lia.
  split; intros o_k Hall Hfail.
  - destruct (walk_then_rollback OpShareFfa ranges _ k w o_k Hlt Hall Hfail)
      as (w1 & Hwalk & Hback).
    unfold ffa_host_share_ranges, __ffa_host_share_ranges, WARN_ON,
      __ffa_host_unshare_ranges, mbind, M_bind.
    rewrite share_ranges_from_walk, Hwalk, Hne.
    rewrite unshare_ranges_from_walk, Nat2Z.id. cbn [engine_undo] in Hback.
    rewrite Hback. by destruct (negb (Z.of_nat k =? 0)).
  - destruct (walk_then_rollback OpUnshareFfa ranges _ k w o_k Hlt Hall Hfail)
      as (w1 & Hwalk & Hback).
    unfold ffa_host_unshare_ranges, __ffa_host_share_ranges, WARN_ON,
      __ffa_host_unshare_ranges, mbind, M_bind.
    rewrite unshare_ranges_from_walk, Hwalk, Hne.
    rewrite share_ranges_from_walk, Nat2Z.id. cbn [engine_undo] in Hback.
    rewrite Hback. by destruct (negb (Z.of_nat k =? 0)).
Qed.

(** The [WARN_ON] of the rollback in [ffa_host_share_ranges] tests the
    number of ranges the rollback unshared: it fires when the rollback
    unshared all [k > 0] ranges, and not when there was nothing to unshare. *)
Remark ffa_host_share_ranges_rollback_warning ranges (nranges : Z) (k : nat)
    w o_k :
  Z.of_nat k < nranges →
  engine_apply_all OpShareFfa (ranges_slice ranges 0 k) (own w) = Some o_k →
  share_page (range_pfn (ranges (Z.of_nat k)))
             (range_npages (ranges (Z.of_nat k))) o_k = None →
  warnings (snd (ffa_host_share_ranges ranges nranges w))
  = if k is O then warnings w else S (warnings w).
Proof.
  intros Hk Hall Hfail.
  assert (Hne : negb (Z.of_nat k =? nranges) = true) by lia.
  assert (Hlt : (k < Z.to_nat nranges)%nat) by lia.
  destruct (walk_then_rollback OpShareFfa ranges _ k w o_k Hlt Hall Hfail)
    as (w1 & Hwalk & Hback).
  unfold ffa_host_share_ranges, __ffa_host_share_ranges, WARN_ON,
    __ffa_host_unshare_ranges, mbind, M_bind.
  rewrite share_ranges_from_walk, Hwalk, Hne.
  rewrite unshare_ranges_from_walk, Nat2Z.id. cbn [engine_undo] in Hback.
  rewrite Hback. by destruct k.
Qed.

Lemma ffa_host_share_ranges_ok ranges (nranges : Z) w o' :
  0 ≤ nranges →
  engine_apply_all OpShareFfa (ranges_slice ranges 0 (Z.to_nat nranges))
                   (own w) = Some o' →
  ffa_host_share_ranges ranges nranges w =
  (0, with_engine o'
        (engine_log w ++ engine_calls OpShareFfa true
                           (ranges_slice ranges 0 (Z.to_nat nranges))) w).
Proof.
  intros Hn Hall.
  unfold ffa_host_share_ranges, __ffa_host_share_ranges, mbind, M_bind.
  rewrite share_ranges_from_walk, (walk_ranges_all_ok _ _ _ _ _ o') by done.
  by assert (negb (0 + Z.of_nat (Z.to_nat nranges) =? nranges) = false)
    as -> by lia.
Qed.

Lemma ffa_host_unshare_ranges_ok ranges (nranges : Z) w o' :
  0 ≤ nranges →
  engine_apply_all OpUnshareFfa (ranges_slice ranges 0 (Z.to_nat nranges))
                   (own w) = Some o' →
  ffa_host_unshare_ranges ranges nranges w =
  (0, with_engine o'
        (engine_log w ++ engine_calls OpUnshareFfa true
                           (ranges_slice ranges 0 (Z.to_nat nranges))) w).
Proof.
  intros Hn Hall.
  unfold ffa_host_unshare_ranges, __ffa_host_unshare_ranges, mbind, M_bind.
  rewrite unshare_ranges_from_walk, (walk_ranges_all_ok _ _ _ _ _ o') by done.
  by assert (negb (0 + Z.of_nat (Z.to_nat nranges) =? nranges) = false)
    as -> by lia.
Qed.

Lemma reg_addr_range_cnt_nonneg (buf : list byte) (reg : Z) :
  0 ≤ reg_addr_range_cnt buf reg.
Proof. apply load_le_nonneg. Qed.

(** ** Memory transfers *)

Lemma ffa_to_smccc_res_error (ret : Z) :
  FFA_RET_SUCCESS = 0 → ret ≠ 0 →
  ffa_to_smccc_res ret = ffa_to_smccc_error ret.
Proof.
  intros Hzero Hret. unfold ffa_to_smccc_res, ffa_to_smccc_res_prop.
  rewrite Hzero. by destruct (Z.eqb_spec ret 0).
Qed.

Lemma mem_out_error (ret : Z) res w :
  FFA_RET_SUCCESS = 0 → ret ≠ 0 →
  mem_out ret res w = (ffa_to_smccc_error ret, w).
Proof.
  intros Hzero Hret. unfold mem_out, mret, M_ret.
  rewrite ffa_to_smccc_res_error by done.
  by destruct (Z.eqb_spec ret 0).
Qed.

(** Runs [do_ffa_mem_xfer] up to the point where the fragment has been
    copied to the proxy's TX mailbox, for registers that pass validation and
    a host mailbox that is mapped. *)
Ltac xfer_reach_staging Hregs Htx :=
  let Haddr := fresh "Haddr" in
  let Hnp := fresh "Hnp" in
  let Hlen := fresh "Hlen" in
  let Hcap := fresh "Hcap" in
  let Hmin := fresh "Hmin" in
  destruct Hregs as (Haddr & Hnp & Hlen & Hcap & Hmin);
  unfold do_ffa_mem_xfer; cbv zeta;
  rewrite Haddr, Hnp;
  match goal with
  | |- context [?f >? ?l] =>
      replace (f >? l) with false by lia
  end;
  match goal with
  | |- context [?f >? KVM_FFA_MBOX_NR_PAGES * PAGE_SIZE] =>
      replace (f >? KVM_FFA_MBOX_NR_PAGES * PAGE_SIZE) with false by lia
  end;
  match goal with
  | |- context [?f <? ?l] => replace (f <? l) with false by lia
  end;
  match goal with
  | |- context [?f <? sizeof_ffa_mem_region
                      + sizeof_ffa_mem_region_attributes] =>
      replace (f <? sizeof_ffa_mem_region + sizeof_ffa_mem_region_attributes)
        with false by lia
  end;
  cbn [Z.eqb negb orb];
  unfold hyp_spin_lock, set_host_lock, modify, gets, mbind, M_bind;
  cbn [host_kvm_ffa with_host_kvm_ffa ffa_tx];
  match goal with
  | |- context [ffa_tx (host_kvm_ffa ?w) =? 0] =>
      replace (ffa_tx (host_kvm_ffa w) =? 0) with false by lia
  end;
  cbn [hyp_tx with_hyp_tx with_host_kvm_ffa host_mem].

(** C5: a transfer whose staged descriptor does not have exactly one
    endpoint-access entry, or whose sender is not the host, or whose
    composite offset is zero or does not fit the fragment, is answered
    "invalid parameters"; the ownership engine is not called, the ownership
    record does not change, nothing is sent downstream. *)
Theorem xfer_bad_descriptor_rejected func_id res ctxt w :
  ffa_abi_ok _ →
  xfer_registers_ok ctxt →
  ffa_tx (host_kvm_ffa w) ≠ 0 →
  let fraglen := u32 (cpu_reg ctxt 2) in
  let buf := staged w ctxt in
  mem_region_ep_count buf ≠ 1 ∨
  mem_region_sender_id buf ≠ HOST_FFA_ID ∨
  mem_region_composite_off buf = 0 ∨
  fraglen < mem_region_composite_off buf + sizeof_ffa_composite_mem_region →
  let '(res', w') := do_ffa_mem_xfer spmd_smc func_id res ctxt w in
  res' = ffa_to_smccc_error FFA_RET_INVALID_PARAMETERS ∧
  own w' = own w ∧ engine_log w' = engine_log w ∧ smc_log w' = smc_log w.
Proof.
  intros Hok Hregs Htx fraglen buf Hbad.
  xfer_reach_staging Hregs Htx.
  fold (staged w ctxt). fold buf. fold fraglen.
  assert (Hout : ∀ w1 : world SPMD,
            let '(res', w') :=
              mem_out_unlock FFA_RET_INVALID_PARAMETERS res w1 in
            res' = ffa_to_smccc_error FFA_RET_INVALID_PARAMETERS ∧
            own w' = own w1 ∧ engine_log w' = engine_log w1 ∧
            smc_log w' = smc_log w1).
  { intros w1. unfold mem_out_unlock, hyp_spin_unlock, set_host_lock, modify,
      mbind, M_bind.
    by rewrite mem_out_error by apply Hok. }
  destruct (_ || _ || _) eqn:Hfirst; [exact (Hout _)|].
  replace (fraglen <? mem_region_composite_off buf
                      + sizeof_ffa_composite_mem_region) with true
    by (unfold HOST_FFA_ID in *; lia).
  exact (Hout _).
Qed.

(** C3, as the code has it: a transfer whose fragment length exceeds its
    total length is answered "invalid parameters", before anything else is
    looked at; the world does not change. *)
Theorem xfer_fragment_longer_than_total func_id res ctxt w :
  ffa_abi_ok _ →
  u32 (cpu_reg ctxt 2) > u32 (cpu_reg ctxt 1) →
  do_ffa_mem_xfer spmd_smc func_id res ctxt w
  = (ffa_to_smccc_error FFA_RET_INVALID_PARAMETERS, w).
Proof.
  intros Hok Hgt. unfold do_ffa_mem_xfer. cbv zeta.
  replace (u32 (cpu_reg ctxt 2) >? u32 (cpu_reg ctxt 1)) with true by lia.
  rewrite !orb_true_r. cbn [orb].
  apply mem_out_error; apply Hok.
Qed.

(** C4: a transfer whose fragment length is strictly less than its total
    length, with the reserved registers zero and the fragment within the
    mailbox, is answered "aborted"; the world, and with it the ownership
    record, does not change. *)
Theorem xfer_fragment_shorter_than_total func_id res ctxt w :
  ffa_abi_ok _ →
  cpu_reg ctxt 3 = 0 →
  u32 (cpu_reg ctxt 4) = 0 →
  u32 (cpu_reg ctxt 2) ≤ KVM_FFA_MBOX_NR_PAGES * PAGE_SIZE →
  u32 (cpu_reg ctxt 2) < u32 (cpu_reg ctxt 1) →
  do_ffa_mem_xfer spmd_smc func_id res ctxt w
  = (ffa_to_smccc_error FFA_RET_ABORTED, w).
Proof.
  intros Hok Haddr Hnp Hcap Hlt. unfold do_ffa_mem_xfer. cbv zeta.
  rewrite Haddr, Hnp.
  replace (u32 (cpu_reg ctxt 2) >? u32 (cpu_reg ctxt 1)) with false by lia.
  replace (u32 (cpu_reg ctxt 2) >? KVM_FFA_MBOX_NR_PAGES * PAGE_SIZE)
    with false by lia.
  replace (u32 (cpu_reg ctxt 2) <? u32 (cpu_reg ctxt 1)) with true by lia.
  cbn [Z.eqb negb orb].
  apply mem_out_error; apply Hok.
Qed.

(** C10: a transfer that is otherwise well formed but issued while the host
    has no mailbox mapped (the recorded TX pointer is null) is answered
    "invalid parameters"; the ownership engine is not called, the ownership
    record does not change, nothing is sent downstream. *)
Theorem xfer_without_mailbox_rejected func_id res ctxt w :
  ffa_abi_ok _ →
  xfer_registers_ok ctxt →
  ffa_tx (host_kvm_ffa w) = 0 →
  let '(res', w') := do_ffa_mem_xfer spmd_smc func_id res ctxt w in
  res' = ffa_to_smccc_error FFA_RET_INVALID_PARAMETERS ∧
  own w' = own w ∧ engine_log w' = engine_log w ∧ smc_log w' = smc_log w ∧
  hyp_tx w' = hyp_tx w.
Proof.
  intros Hok (Haddr & Hnp & Hlen & Hcap & Hmin) Htx.
  unfold do_ffa_mem_xfer. cbv zeta.
  rewrite Haddr, Hnp.
  replace (u32 (cpu_reg ctxt 2) >? u32 (cpu_reg ctxt 1)) with false by lia.
  replace (u32 (cpu_reg ctxt 2) >? KVM_FFA_MBOX_NR_PAGES * PAGE_SIZE)
    with false by lia.
  replace (u32 (cpu_reg ctxt 2) <? u32 (cpu_reg ctxt 1)) with false by lia.
  replace (u32 (cpu_reg ctxt 2) <?
           sizeof_ffa_mem_region + sizeof_ffa_mem_region_attributes)
    with false by lia.
  cbn [Z.eqb negb orb].
  unfold hyp_spin_lock, set_host_lock, modify, gets, mbind, M_bind.
  cbn [host_kvm_ffa with_host_kvm_ffa ffa_tx]. rewrite Htx. cbn [Z.eqb].
  unfold mem_out_unlock, hyp_spin_unlock, set_host_lock, modify, mbind, M_bind.
  by rewrite mem_out_error by apply Hok.
Qed.

(** Without a host mailbox no transfer, well formed or not, touches the
    ownership record or reaches the downstream: the answer is "invalid
    parameters", or "aborted" for a fragment shorter than the total. *)
Lemma xfer_without_mailbox_untouched func_id res ctxt w :
  ffa_abi_ok _ →
  ffa_tx (host_kvm_ffa w) = 0 →
  let '(res', w') := do_ffa_mem_xfer spmd_smc func_id res ctxt w in
  (res' = ffa_to_smccc_error FFA_RET_INVALID_PARAMETERS ∨
   res' = ffa_to_smccc_error FFA_RET_ABORTED) ∧
  own w' = own w ∧ engine_log w' = engine_log w ∧ smc_log w' = smc_log w.
Proof.
  intros Hok Htx.
  pose proof (ret_success_zero Hok) as Hzero.
  pose proof (ret_invalid_parameters_nonzero Hok) as Hinv.
  pose proof (ret_aborted_nonzero Hok) as Habo.
  unfold do_ffa_mem_xfer. cbv zeta.
  destruct (_ || _ || _ || _); [rewrite mem_out_error by done; auto|].
  destruct (_ <? _); [rewrite mem_out_error by done; auto|].
  destruct (_ <? _); [rewrite mem_out_error by done; auto|].
  unfold hyp_spin_lock, set_host_lock, modify, gets, mbind, M_bind.
  cbn [host_kvm_ffa with_host_kvm_ffa ffa_tx]. rewrite Htx. cbn [Z.eqb].
  unfold mem_out_unlock, hyp_spin_unlock, set_host_lock, modify, mbind, M_bind.
  rewrite mem_out_error by done. auto.
Qed.

(** C2: a transfer that passes validation and whose ranges could all be
    marked shared is forwarded downstream, and the downstream's result
    registers are returned as they are.  When the downstream does not answer
    success, the same ranges are unshared, first to last, and the ownership
    record is as it was before the call; when it does, the ranges stay
    shared. *)
Theorem xfer_forwarded_commit_or_rollback func_id res ctxt w o' :
  xfer_registers_ok ctxt →
  ffa_tx (host_kvm_ffa w) ≠ 0 →
  let len := u32 (cpu_reg ctxt 1) in
  let fraglen := u32 (cpu_reg ctxt 2) in
  let buf := staged w ctxt in
  xfer_descriptor_ok buf fraglen →
  engine_apply_all OpShareFfa (staged_ranges buf) (own w) = Some o' →
  let call := [func_id; len; fraglen; 0; 0; 0; 0; 0] in
  let '(_, down, _) := spmd_smc (spmd w) call buf (hyp_rx w) in
  let '(res', w') := do_ffa_mem_xfer spmd_smc func_id res ctxt w in
  res' = down ∧ smc_log w' = smc_log w ++ [call] ∧
  if a0 down =? FFA_SUCCESS
  then own w' = o' ∧
       engine_log w' =
         engine_log w ++ engine_calls OpShareFfa true (staged_ranges buf)
  else own w' = own w ∧
       engine_log w' =
         engine_log w ++ engine_calls OpShareFfa true (staged_ranges buf)
         ++ engine_calls OpUnshareFfa true (staged_ranges buf).
Proof.
  intros Hregs Htx len fraglen buf (Hoff & Hep & Hsender & Hfit1 & Hfit2)
    Hshare call.
  pose proof (reg_addr_range_cnt_nonneg buf (mem_region_composite_off buf))
    as Hcnt.
  assert (Hlen' : fraglen = len) by apply Hregs.
  xfer_reach_staging Hregs Htx.
  fold (staged w ctxt). fold buf. fold fraglen. fold len.
  rewrite Hep, Hsender.
  replace (mem_region_composite_off buf =? 0) with false by lia.
  replace (fraglen <? mem_region_composite_off buf
                      + sizeof_ffa_composite_mem_region) with false by lia.
  replace (fraglen <? mem_region_composite_off buf
                      + sizeof_ffa_composite_mem_region
                      + reg_addr_range_cnt buf (mem_region_composite_off buf)
                        * sizeof_ffa_mem_region_addr_range)
    with false by lia.
  rewrite !Z.eqb_refl. cbn [negb orb]. cbv beta.
  rewrite (ffa_host_share_ranges_ok _ _ _ o') by done.
  cbn [Z.eqb negb].
  unfold spmd_mem_xfer, arm_smccc_1_1_smc.
  cbn [spmd hyp_tx hyp_rx with_engine with_hyp_tx with_host_kvm_ffa].
  fold call.
  destruct (spmd_smc (spmd w) call buf (hyp_rx w)) as [[s' down] rx'].
  destruct (a0 down =? FFA_SUCCESS); cbn [negb].
  - by unfold mret, M_ret, mem_out_unlock, mem_out, hyp_spin_unlock,
      set_host_lock, modify, mbind, M_bind.
  - unfold WARN_ON, mbind, M_bind. cbv beta.
    cbn [hyp_tx with_smc with_engine with_hyp_tx].
    rewrite (ffa_host_unshare_ranges_ok _ _ _ (own w))
      by (done || by apply (engine_apply_all_reverse OpShareFfa)).
    unfold mret, M_ret, mem_out_unlock, mem_out, hyp_spin_unlock,
      set_host_lock, modify, mbind, M_bind. cbn.
    by rewrite <- app_assoc.
Qed.

(** C6: in a reclaim, when the downstream does not answer the retrieve
    request with the retrieve-response tag, its result registers are returned
    as they are; when it does but the response is fragmented (a1 differs from
    a2), the answer is "aborted".  In both cases the retrieve request is the
    only call sent downstream (no reclaim is issued) and the ownership record
    is not touched. *)
Theorem reclaim_retrieve_response res ctxt w :
  ffa_abi_ok _ →
  let handle := PACK_HANDLE (u32 (cpu_reg ctxt 1)) (u32 (cpu_reg ctxt 2)) in
  let call := [FFA_FN64_MEM_RETRIEVE_REQ; sizeof_ffa_mem_region;
               sizeof_ffa_mem_region; 0; 0; 0; 0; 0] in
  let '(_, down, _) :=
    spmd_smc (spmd w) call (retrieve_request handle (hyp_tx w)) (hyp_rx w) in
  let '(res', w') := do_ffa_mem_reclaim spmd_smc res ctxt w in
  (a0 down ≠ FFA_MEM_RETRIEVE_RESP →
   res' = down ∧ smc_log w' = smc_log w ++ [call] ∧
   own w' = own w ∧ engine_log w' = engine_log w) ∧
  (a0 down = FFA_MEM_RETRIEVE_RESP → a1 down ≠ a2 down →
   res' = ffa_to_smccc_error FFA_RET_ABORTED ∧
   smc_log w' = smc_log w ++ [call] ∧
   own w' = own w ∧ engine_log w' = engine_log w).
Proof.
  intros Hok handle call.
  unfold do_ffa_mem_reclaim. cbv zeta. fold handle.
  unfold hyp_spin_lock, set_host_lock, modify, gets, spmd_retrieve_req,
    arm_smccc_1_1_smc, mbind, M_bind.
  cbn [spmd hyp_tx hyp_rx with_hyp_tx with_host_kvm_ffa]. fold call.
  destruct (spmd_smc (spmd w) call _ (hyp_rx w)) as [[s' down] rx'].
  unfold mem_out_unlock, hyp_spin_unlock, set_host_lock, modify, mbind, M_bind.
  destruct (Z.eqb_spec (a0 down) FFA_MEM_RETRIEVE_RESP) as [Htag|Htag];
    cbn [negb].
  - destruct (Z.eqb_spec (a1 down) (a2 down)) as [Hwhole|Hfrag]; cbn [negb].
    + match goal with |- (let '(_, _) := ?t in _) => destruct t end.
      by split.
    + cbv beta. by rewrite mem_out_error by apply Hok.
  - cbv beta. by unfold mem_out, mret, M_ret.
Qed.

(** ** The RX/TX mailbox *)

Lemma rxtx_map_registers_ok_dec ctxt :
  rxtx_map_registers_ok ctxt ↔
  negb (u32 (cpu_reg ctxt 3)
        =? (KVM_FFA_MBOX_NR_PAGES * PAGE_SIZE) / FFA_PAGE_SIZE) = false ∧
  negb (PAGE_ALIGNED (cpu_reg ctxt 1)) || negb (PAGE_ALIGNED (cpu_reg ctxt 2))
  = false.
Proof.
  unfold rxtx_map_registers_ok.
  destruct (PAGE_ALIGNED (cpu_reg ctxt 1)), (PAGE_ALIGNED (cpu_reg ctxt 2));
    simpl; split; intros (? & ?); (repeat split); (lia || done || tauto).
Qed.

Ltac rxtx_leaf :=
  repeat (first [split | intro]);
  try done; try congruence; try contradiction;
  try match goal with Hr : rxtx_map_registers_ok _ |- _ => apply Hr end;
  try (cbn [app]; by rewrite <- app_assoc).

(** C7, as the code has it.  A map request with a wrong page count or a
    misaligned address is answered "invalid parameters" and changes nothing,
    whether a mailbox is mapped or not.  A request that passes these checks
    while a mailbox is mapped is answered "denied", and the mapping, the
    ownership record and the downstream are left alone.  The request succeeds
    only if it passes the checks and no mailbox is mapped.  Whenever it does
    not succeed, the ownership record and the recorded mapping are what they
    were before the call: the grants made on the way are taken back; and when
    the downstream had accepted the mapping, it is asked to unmap. *)
Theorem rxtx_map_outcomes ctxt w :
  ffa_abi_ok _ →
  let map_call :=
    [FFA_FN64_RXTX_MAP; hyp_virt_to_phys (ffa_tx (ffa_buffers w));
     hyp_virt_to_phys (ffa_rx (ffa_buffers w)); u32 (cpu_reg ctxt 3);
     0; 0; 0; 0] in
  let unmap_call := [FFA_RXTX_UNMAP; HOST_FFA_ID; 0; 0; 0; 0; 0; 0] in
  let '(_, down, _) := spmd_smc (spmd w) map_call (hyp_tx w) (hyp_rx w) in
  let accepted :=
    to_int (if a0 down =? FFA_SUCCESS then FFA_RET_SUCCESS else a2 down)
    =? 0 in
  let '(res', w') := do_ffa_rxtx_map spmd_smc ctxt w in
  (¬ rxtx_map_registers_ok ctxt →
   res' = ffa_to_smccc_error FFA_RET_INVALID_PARAMETERS ∧ w' = w) ∧
  (rxtx_map_registers_ok ctxt → ffa_tx (host_kvm_ffa w) ≠ 0 →
   res' = ffa_to_smccc_error FFA_RET_DENIED ∧
   ffa_tx (host_kvm_ffa w') = ffa_tx (host_kvm_ffa w) ∧
   ffa_rx (host_kvm_ffa w') = ffa_rx (host_kvm_ffa w) ∧
   own w' = own w ∧ engine_log w' = engine_log w ∧ smc_log w' = smc_log w) ∧
  (a0 res' = FFA_SUCCESS →
   rxtx_map_registers_ok ctxt ∧ ffa_tx (host_kvm_ffa w) = 0) ∧
  (a0 res' ≠ FFA_SUCCESS →
   own w' = own w ∧
   ffa_tx (host_kvm_ffa w') = ffa_tx (host_kvm_ffa w) ∧
   ffa_rx (host_kvm_ffa w') = ffa_rx (host_kvm_ffa w)) ∧
  (a0 res' ≠ FFA_SUCCESS →
   rxtx_map_registers_ok ctxt → ffa_tx (host_kvm_ffa w) = 0 →
   smc_log w' =
     smc_log w ++ (if accepted then [map_call; unmap_call] else [map_call])).
Proof.
  intros Hok map_call unmap_call.
  pose proof (ret_invalid_parameters_nonzero Hok) as Hinv.
  pose proof (ret_denied_nonzero Hok) as Hden.
  pose proof (ret_success_zero Hok) as Hzero.
  pose proof (success_not_error Hok) as Hse.
  pose proof (rxtx_map_registers_ok_dec ctxt) as Hdec.
  destruct (spmd_smc (spmd w) map_call (hyp_tx w) (hyp_rx w))
    as [[s1 down] rx1] eqn:Hsmc.
  set (ret := to_int _). cbv zeta.
  unfold do_ffa_rxtx_map. cbv zeta.
  destruct (negb (u32 (cpu_reg ctxt 3) =? _)) eqn:Hcount.
  { assert (¬ rxtx_map_registers_ok ctxt) by (intros []%Hdec; congruence).
    unfold rxtx_out, mret, M_ret. rewrite ffa_to_smccc_res_error by done.
    cbn [a0 ffa_to_smccc_error]. rxtx_leaf. }
  destruct (negb (PAGE_ALIGNED _) || negb (PAGE_ALIGNED _)) eqn:Halign.
  { assert (¬ rxtx_map_registers_ok ctxt) by (intros []%Hdec; congruence).
    unfold rxtx_out, mret, M_ret. rewrite ffa_to_smccc_res_error by done.
    cbn [a0 ffa_to_smccc_error]. rxtx_leaf. }
  assert (Hregs : rxtx_map_registers_ok ctxt) by (by apply Hdec).
  unfold hyp_spin_lock, set_host_lock, modify, gets, mbind, M_bind.
  cbn [host_kvm_ffa with_host_kvm_ffa ffa_tx].
  unfold rxtx_map_err_unshare_tx, rxtx_map_err_unmap, rxtx_out_unlock,
    rxtx_out, hyp_spin_unlock, set_host_lock, modify, mret, M_ret,
    mbind, M_bind.
  destruct (Z.eqb_spec (ffa_tx (host_kvm_ffa w)) 0) as [Htx|Htx]; cbn [negb].
  2: { rewrite ffa_to_smccc_res_error by done.
       cbn [a0 ffa_to_smccc_error own engine_log smc_log host_kvm_ffa
            with_host_kvm_ffa ffa_tx ffa_rx].
       rxtx_leaf. }
  unfold spmd_map_ffa_buffers, spmd_unmap_ffa_buffers, arm_smccc_1_1_smc,
    gets, mret, M_ret, mbind, M_bind.
  cbn [spmd hyp_tx hyp_rx ffa_buffers with_host_kvm_ffa].
  fold map_call. rewrite Hsmc. fold ret.
  destruct (Z.eqb_spec ret 0) as [Hret|Hret]; cbn [negb].
  2: { rewrite ffa_to_smccc_res_error by done.
       cbn [a0 ffa_to_smccc_error own engine_log smc_log host_kvm_ffa
            with_host_kvm_ffa with_smc ffa_tx ffa_rx].
       rxtx_leaf. }
  unfold __pkvm_host_share_hyp, __pkvm_host_unshare_hyp, engine_call_op.
  cbn [own with_smc with_host_kvm_ffa].
  destruct (engine_apply OpShareHyp (hyp_phys_to_pfn (cpu_reg ctxt 1)) 1
              (own w)) as [o1|] eqn:Htxgrant; cbn [negb Z.eqb].
  2: { cbn [spmd hyp_tx hyp_rx with_engine with_smc].
       match goal with
       | |- context [spmd_smc ?s ?a ?t ?r] =>
           destruct (spmd_smc s a t r) as [[s2 r2] rx2]
       end.
       rewrite ffa_to_smccc_res_error by done.
       cbn [a0 ffa_to_smccc_error own engine_log smc_log host_kvm_ffa
            with_host_kvm_ffa with_smc with_engine ffa_tx ffa_rx].
       rxtx_leaf. }
  cbn [own with_engine].
  destruct (engine_apply OpShareHyp (hyp_phys_to_pfn (cpu_reg ctxt 2)) 1 o1)
    as [o2|] eqn:Hrxgrant; cbn [negb Z.eqb].
  - unfold set_host_tx, set_host_rx, modify.
    unfold ffa_to_smccc_res, ffa_to_smccc_res_prop.
    rewrite Hzero. cbn [Z.eqb a0]. rxtx_leaf.
  - pose proof (engine_apply_reverse OpShareHyp _ _ _ _ Htxgrant) as Hback.
    cbn [engine_undo] in Hback. cbn [own with_engine]. rewrite Hback.
    cbn [spmd hyp_tx hyp_rx with_engine with_smc].
    match goal with
    | |- context [spmd_smc ?s ?a ?t ?r] =>
        destruct (spmd_smc s a t r) as [[s2 r2] rx2]
    end.
    rewrite ffa_to_smccc_res_error by done.
    cbn [a0 ffa_to_smccc_error own engine_log smc_log host_kvm_ffa
         with_host_kvm_ffa with_smc with_engine ffa_tx ffa_rx].
    rxtx_leaf.
Qed.

(** ** Dispatch *)

Lemma ffa_call_unsupported_true (id : Z) :
  ffa_call_unsupported id = true ↔ id ∈ unsupported_calls.
Proof. unfold ffa_call_unsupported. apply bool_decide_eq_true. Qed.

Lemma ffa_call_unsupported_false (id : Z) :
  ffa_call_unsupported id = false ↔ id ∉ unsupported_calls.
Proof. unfold ffa_call_unsupported. apply bool_decide_eq_false. Qed.

(** Facts about the case labels, out of [ffa_abi_ok]. *)
Lemma features_is_ffa_call :
  ffa_abi_ok _ → is_ffa_call FFA_FEATURES = true.
Proof.
  intros Hok.
  apply (proj1 (Forall_forall _ _) (handled_are_ffa_calls Hok)).
  apply list_elem_of_here.
Qed.

Lemma frag_tx_is_ffa_call :
  ffa_abi_ok _ → is_ffa_call FFA_MEM_FRAG_TX = true.
Proof.
  intros Hok.
  apply (proj1 (Forall_forall _ _) (handled_are_ffa_calls Hok)).
  apply elem_of_app. right. apply list_elem_of_here.
Qed.

Lemma frag_tx_not_dispatched :
  ffa_abi_ok _ → FFA_MEM_FRAG_TX ∉ handled_calls.
Proof.
  intros Hok Hin.
  pose proof (handled_distinct Hok) as Hnd.
  apply NoDup_app in Hnd as (_ & Hdisj & _).
  apply (Hdisj _ Hin). apply list_elem_of_here.
Qed.

Lemma frag_tx_not_unsupported :
  ffa_abi_ok _ → FFA_MEM_FRAG_TX ∉ unsupported_calls.
Proof.
  intros Hok Hin.
  apply (proj1 (Forall_forall _ _) (unsupported_not_dispatched Hok) _ Hin).
  apply elem_of_app. right. apply list_elem_of_here.
Qed.

Lemma unsupported_not_handled (id : Z) :
  ffa_abi_ok _ → id ∈ unsupported_calls → id ∉ handled_calls.
Proof.
  intros Hok Hin Hh.
  apply (proj1 (Forall_forall _ _) (unsupported_not_dispatched Hok) _ Hin).
  apply elem_of_app. by left.
Qed.

(** The share and lend identifiers are case labels of the dispatcher. *)
Lemma transfer_calls_dispatched (id : Z) :
  id ∈ transfer_calls →
  id ∈ handled_calls.
Proof.
  intros Hin. unfold transfer_calls in Hin.
  repeat (apply elem_of_cons in Hin as [->|Hin]);
    [.. | by apply elem_of_nil in Hin];
    repeat first [apply list_elem_of_here | apply list_elem_of_further].
Qed.

(** What [do_ffa_features] answers, by the kind of the identifier queried. *)
Lemma do_ffa_features_cases res ctxt :
  ffa_abi_ok _ →
  let id := u32 (cpu_reg ctxt 1) in
  (id ∈ unsupported_calls →
   do_ffa_features res ctxt
   = (true, ffa_to_smccc_error FFA_RET_NOT_SUPPORTED)) ∧
  (id ∈ transfer_calls →
   do_ffa_features res ctxt
   = (true, {| a0 := FFA_SUCCESS; a1 := 0; a2 := 0; a3 := 0 |})) ∧
  (id ∉ unsupported_calls →
   id ∉ transfer_calls →
   do_ffa_features res ctxt = (false, res)).
Proof.
  intros Hok id. unfold do_ffa_features. cbv zeta. fold id.
  split; [|split].
  - intros Hin. apply ffa_call_unsupported_true in Hin. rewrite Hin.
    unfold ffa_to_smccc_res_prop. rewrite (ret_success_zero Hok).
    pose proof (ret_not_supported_nonzero Hok).
    by destruct (Z.eqb_spec FFA_RET_NOT_SUPPORTED 0).
  - intros Hin.
    assert (Hnot : id ∉ unsupported_calls).
    { intros Hun. apply (unsupported_not_handled id Hok Hun).
      by apply transfer_calls_dispatched. }
    apply ffa_call_unsupported_false in Hnot. rewrite Hnot.
    rewrite bool_decide_eq_true_2 by done.
    unfold ffa_to_smccc_res_prop. by rewrite Z.eqb_refl.
  - intros Hnot Hnot'.
    apply ffa_call_unsupported_false in Hnot. rewrite Hnot.
    by rewrite bool_decide_eq_false_2.
Qed.

(** The dispatcher on a feature query. *)
Lemma kvm_host_ffa_handler_features res ctxt w :
  ffa_abi_ok _ →
  cpu_reg ctxt 0 = FFA_FEATURES →
  kvm_host_ffa_handler spmd_smc res ctxt w =
  (let '(handled, res') := do_ffa_features res ctxt in
   if handled then (true, ffa_set_retval ctxt res') else (false, ctxt), w).
Proof.
  intros Hok Hid. unfold kvm_host_ffa_handler. cbv zeta.
  rewrite Hid, (features_is_ffa_call Hok), Z.eqb_refl. cbn [negb].
  by destruct (do_ffa_features res ctxt) as [[] res'].
Qed.

(** The dispatcher on an identifier that is none of the case labels that
    have a handler: the code after the switch decides. *)
Lemma kvm_host_ffa_handler_after_switch res ctxt w :
  is_ffa_call (cpu_reg ctxt 0) = true →
  cpu_reg ctxt 0 ∉ handled_calls →
  kvm_host_ffa_handler spmd_smc res ctxt w =
  (if ffa_call_unsupported (cpu_reg ctxt 0)
   then (true, ffa_set_retval ctxt (ffa_to_smccc_error FFA_RET_NOT_SUPPORTED))
   else (false, ctxt), w).
Proof.
  intros Hcall Hnot. unfold kvm_host_ffa_handler. cbv zeta.
  rewrite Hcall. cbn [negb]. unfold handled_calls in Hnot.
  repeat (apply not_elem_of_cons in Hnot as [? Hnot]).
  repeat match goal with
         | Hne : cpu_reg ctxt 0 ≠ ?c |- context [cpu_reg ctxt 0 =? ?c] =>
             replace (cpu_reg ctxt 0 =? c) with false by lia
         end.
  cbn [orb].
  by destruct (cpu_reg ctxt 0 =? FFA_MEM_FRAG_TX),
              (ffa_call_unsupported (cpu_reg ctxt 0)).
Qed.

(** The dispatcher on the case labels of the mailbox and memory calls: it
    runs the handler of the call and copies its result to the registers. *)
Lemma kvm_host_ffa_handler_dispatch res ctxt w :
  ffa_abi_ok _ →
  let id := cpu_reg ctxt 0 in
  let handled (call : M arm_smccc_res) :=
    let '(res', w') := call w in (true, ffa_set_retval ctxt res', w') in
  (id = FFA_FN64_RXTX_MAP →
   kvm_host_ffa_handler spmd_smc res ctxt w
   = handled (do_ffa_rxtx_map spmd_smc ctxt)) ∧
  (id = FFA_RXTX_UNMAP →
   kvm_host_ffa_handler spmd_smc res ctxt w
   = handled (do_ffa_rxtx_unmap spmd_smc ctxt)) ∧
  (id = FFA_MEM_SHARE ∨ id = FFA_FN64_MEM_SHARE →
   kvm_host_ffa_handler spmd_smc res ctxt w
   = handled (do_ffa_mem_xfer spmd_smc FFA_FN64_MEM_SHARE res ctxt)) ∧
  (id = FFA_MEM_RECLAIM →
   kvm_host_ffa_handler spmd_smc res ctxt w
   = handled (do_ffa_mem_reclaim spmd_smc res ctxt)) ∧
  (id = FFA_MEM_LEND ∨ id = FFA_FN64_MEM_LEND →
   kvm_host_ffa_handler spmd_smc res ctxt w
   = handled (do_ffa_mem_xfer spmd_smc FFA_FN64_MEM_LEND res ctxt)).
Proof.
  intros Hok id handled.
  pose proof (handled_distinct Hok) as Hnd.
  pose proof (handled_are_ffa_calls Hok) as Hcalls.
  unfold handled_calls in Hnd, Hcalls. cbn [app] in Hnd, Hcalls.
  repeat (apply NoDup_cons in Hnd as [Hnotin Hnd];
          repeat (apply not_elem_of_cons in Hnotin as [? Hnotin]);
          clear Hnotin).
  repeat (apply Forall_cons in Hcalls as [? Hcalls]).
  unfold kvm_host_ffa_handler, handled. cbv zeta. fold id.
  unfold mbind, M_bind, mret, M_ret.
  split; [|split; [|split; [|split]]]; intros Hid;
    try destruct Hid as [Hid|Hid]; rewrite Hid;
    repeat match goal with
           | Hc : is_ffa_call ?c = true |- context [is_ffa_call ?c] =>
               rewrite Hc
           | |- context [?c =? ?c] => rewrite (Z.eqb_refl c)
           | Hne : ?c ≠ ?d |- context [?c =? ?d] =>
               rewrite (proj2 (Z.eqb_neq c d) Hne)
           | Hne : ?d ≠ ?c |- context [?c =? ?d] =>
               rewrite (proj2 (Z.eqb_neq c d) (not_eq_sym Hne))
           end;
    cbn [negb orb]; rewrite ?orb_true_r; done.
Qed.

(** C8, as the code has it: every call that [ffa_call_unsupported] lists is
    answered "not supported", by the dispatcher when it is the call made and
    by the feature query when it is the call asked about, and the world does
    not change.  [FFA_MEM_FRAG_TX] is not one of them: the dispatcher passes
    it through, and the feature query about it is passed through as well. *)
Theorem unsupported_calls_rejected res ctxt w (id : Z) :
  ffa_abi_ok _ →
  let not_supported :=
    (true, ffa_set_retval ctxt (ffa_to_smccc_error FFA_RET_NOT_SUPPORTED), w) in
  let query := cpu_reg ctxt 0 = FFA_FEATURES in
  (id ∈ unsupported_calls →
   (cpu_reg ctxt 0 = id →
    kvm_host_ffa_handler spmd_smc res ctxt w = not_supported) ∧
   (query → u32 (cpu_reg ctxt 1) = id →
    kvm_host_ffa_handler spmd_smc res ctxt w = not_supported)) ∧
  (id = FFA_MEM_FRAG_TX →
   (cpu_reg ctxt 0 = id →
    kvm_host_ffa_handler spmd_smc res ctxt w = (false, ctxt, w)) ∧
   (query → u32 (cpu_reg ctxt 1) = id →
    kvm_host_ffa_handler spmd_smc res ctxt w = (false, ctxt, w))).
Proof.
  intros Hok not_supported query. split.
  - intros Hin. split.
    + intros Hid. rewrite kvm_host_ffa_handler_after_switch.
      * rewrite Hid. apply ffa_call_unsupported_true in Hin. by rewrite Hin.
      * rewrite Hid.
        by apply (proj1 (Forall_forall _ _) (unsupported_are_ffa_calls Hok)).
      * rewrite Hid. by apply unsupported_not_handled.
    + intros Hq Hid. rewrite kvm_host_ffa_handler_features by done.
      destruct (do_ffa_features_cases res ctxt Hok) as (Hun & _ & _).
      rewrite Hun; [done | by rewrite Hid].
  - intros ->. split.
    + intros Hid. rewrite kvm_host_ffa_handler_after_switch.
      * rewrite Hid.
        pose proof (frag_tx_not_unsupported Hok) as Hnot.
        apply ffa_call_unsupported_false in Hnot. by rewrite Hnot.
      * rewrite Hid. by apply frag_tx_is_ffa_call.
      * rewrite Hid. by apply frag_tx_not_dispatched.
    + intros Hq Hid. rewrite kvm_host_ffa_handler_features by done.
      destruct (do_ffa_features_cases res ctxt Hok) as (_ & _ & Hother).
      rewrite Hother; [done | rewrite Hid; by apply frag_tx_not_unsupported |].
      rewrite Hid. intros Hin%transfer_calls_dispatched.
      by apply (frag_tx_not_dispatched Hok).
Qed.

(** C9: the feature query answers "not supported" for a call that
    [ffa_call_unsupported] lists, success with a zero property for the share
    and lend calls, and declines to handle any other identifier, so that the
    dispatcher passes the query through, registers and world untouched. *)
Theorem features_query_answers res ctxt w :
  ffa_abi_ok _ →
  cpu_reg ctxt 0 = FFA_FEATURES →
  let id := u32 (cpu_reg ctxt 1) in
  let answer (res' : arm_smccc_res) := (true, ffa_set_retval ctxt res', w) in
  (id ∈ unsupported_calls →
   do_ffa_features res ctxt
   = (true, ffa_to_smccc_error FFA_RET_NOT_SUPPORTED) ∧
   kvm_host_ffa_handler spmd_smc res ctxt w
   = answer (ffa_to_smccc_error FFA_RET_NOT_SUPPORTED)) ∧
  (id ∈ transfer_calls →
   do_ffa_features res ctxt
   = (true, {| a0 := FFA_SUCCESS; a1 := 0; a2 := 0; a3 := 0 |}) ∧
   kvm_host_ffa_handler spmd_smc res ctxt w
   = answer {| a0 := FFA_SUCCESS; a1 := 0; a2 := 0; a3 := 0 |}) ∧
  (id ∉ unsupported_calls →
   id ∉ transfer_calls →
   do_ffa_features res ctxt = (false, res) ∧
   kvm_host_ffa_handler spmd_smc res ctxt w = (false, ctxt, w)).
Proof.
  intros Hok Hq id answer.
  rewrite kvm_host_ffa_handler_features by done.
  destruct (do_ffa_features_cases res ctxt Hok) as (Hun & Hxfer & Hother).
  fold id in Hun, Hxfer, Hother.
  split; [|split].
  - intros Hin. by rewrite Hun.
  - intros Hin. by rewrite Hxfer.
  - intros Hnot Hnot'. by rewrite Hother.
Qed.

End Properties.

(** ** The instance *)

#[local] Existing Instance ffa_v1_0.

(** Decides that a constant is not in a list of constants. *)
Ltac not_in_constants :=
  let Hin := fresh "Hin" in
  intros Hin;
  repeat (apply elem_of_cons in Hin as [Hin|Hin];
          [vm_compute in Hin; discriminate|]);
  by apply elem_of_nil in Hin.

(** The same for Stdlib's [In]. *)
Ltac not_in_constants_In :=
  let Hin := fresh "Hin" in
  intros Hin; cbn [In] in Hin;
  repeat (destruct Hin as [Hin|Hin]; [discriminate|]);
  exact Hin.

Lemma ffa_v1_0_ok : ffa_abi_ok ffa_v1_0.
Proof.
  split; try (vm_compute; congruence).
  - apply NoDup_ListNoDup. vm_compute.
    repeat (constructor; [not_in_constants_In|]). constructor.
  - unfold handled_calls. cbn [app].
    repeat first [apply Forall_nil_2 | apply Forall_cons_2];
      vm_compute; reflexivity.
  - unfold unsupported_calls.
    repeat first [apply Forall_nil_2 | apply Forall_cons_2];
      vm_compute; reflexivity.
  - unfold unsupported_calls, handled_calls. cbn [app].
    repeat first [apply Forall_nil_2 | apply Forall_cons_2];
      not_in_constants.
Qed.

Lemma ffa_host_ranges_rollback_witness :
  (let '(ret, w') :=
     ffa_host_share_ranges example_ranges 3
       (world_mapped []) in
   ret = -6 ∧ own w' = own (world_mapped []) ∧
   engine_log w' =
     [EngineCall OpShareFfa 5 2 true; EngineCall OpShareFfa 9 1 true;
      EngineCall OpShareFfa 6 1 false;
      EngineCall OpUnshareFfa 5 2 true; EngineCall OpUnshareFfa 9 1 true]) ∧
  (let '(ret, w') :=
     ffa_host_unshare_ranges example_ranges 3 world_shared in
   ret = -6 ∧ own w' = own world_shared ∧
   engine_log w' =
     [EngineCall OpUnshareFfa 5 2 true; EngineCall OpUnshareFfa 9 1 true;
      EngineCall OpUnshareFfa 6 1 false;
      EngineCall OpShareFfa 5 2 true; EngineCall OpShareFfa 9 1 true]).
Proof.
  split.
  - apply (proj1 (ffa_host_ranges_rollback example_ranges 3 2
                    (world_mapped []) ltac:(lia))
             (own world_shared)); vm_compute; reflexivity.
  - apply (proj2 (ffa_host_ranges_rollback example_ranges 3 2
                    world_shared ltac:(lia))
             (own (world_mapped []))); vm_compute; reflexivity.
Defined.

Lemma xfer_forwarded_commit_or_rollback_witness :
  let w := world_mapped [(reply_no_memory, [])] in
  let share := FFA_SMC_64 0x73 in
  let '(res', w') :=
    do_ffa_mem_xfer scripted_smc share res_zero
      (regs share 96 96 0 0) w in
  res' = reply_no_memory ∧
  smc_log w' = [[share; 96; 96; 0; 0; 0; 0; 0]] ∧
  own w' = own w ∧
  engine_log w' =
    [EngineCall OpShareFfa 5 1 true; EngineCall OpShareFfa 9 2 true;
     EngineCall OpUnshareFfa 5 1 true; EngineCall OpUnshareFfa 9 2 true].
Proof.
  intros w share.
  pose proof (xfer_forwarded_commit_or_rollback scripted_smc
                share res_zero (regs share 96 96 0 0) w
                (set_pages SharedDownstream [5; 9; 10] (host_pages 5 10)))
    as Hthm.
  destruct (do_ffa_mem_xfer _ _ _ _ _) as [res' w'].
  apply Hthm; vm_compute; intuition congruence.
Defined.

Lemma xfer_fragment_longer_than_total_witness :
  let share := FFA_SMC_64 0x73 in
  do_ffa_mem_xfer scripted_smc share res_zero
    (regs share 10 20 0 0) (world_mapped [])
  = (ffa_to_smccc_error (-2), world_mapped []).
Proof.
  intros share.
  apply (xfer_fragment_longer_than_total scripted_smc share
           res_zero (regs share 10 20 0 0) (world_mapped []) ffa_v1_0_ok).
  vm_compute. reflexivity.
Defined.

(** C3 as stated fails: a share whose fragment length (20) exceeds its total
    length (10) is not answered "aborted" (-8) but "invalid parameters"
    (-2). *)
Lemma xfer_fragment_longer_than_total_not_aborted :
  let share := FFA_SMC_64 0x73 in
  let ctxt := regs share 10 20 0 0 in
  let res' := fst (do_ffa_mem_xfer scripted_smc share
                     res_zero ctxt (world_mapped [])) in
  u32 (cpu_reg ctxt 2) > u32 (cpu_reg ctxt 1) ∧
  res' ≠ ffa_to_smccc_error FFA_RET_ABORTED ∧
  res' = ffa_to_smccc_error FFA_RET_INVALID_PARAMETERS.
Proof. vm_compute. repeat split; congruence. Qed.

Lemma xfer_fragment_shorter_than_total_witness :
  let share := FFA_SMC_64 0x73 in
  do_ffa_mem_xfer scripted_smc share res_zero
    (regs share 20 10 0 0) (world_mapped [])
  = (ffa_to_smccc_error (-8), world_mapped []).
Proof.
  intros share.
  apply (xfer_fragment_shorter_than_total scripted_smc share
           res_zero (regs share 20 10 0 0) (world_mapped []) ffa_v1_0_ok);
    vm_compute; congruence.
Defined.

Lemma xfer_bad_descriptor_rejected_witness :
  let lend := FFA_SMC_64 0x72 in
  let '(res', w') :=
    do_ffa_mem_xfer scripted_smc lend res_zero
      (regs lend 96 96 0 0) world_two_receivers in
  res' = ffa_to_smccc_error (-2) ∧
  own w' = own world_two_receivers ∧ engine_log w' = [] ∧ smc_log w' = [].
Proof.
  intros lend.
  apply (xfer_bad_descriptor_rejected scripted_smc lend
           res_zero (regs lend 96 96 0 0) world_two_receivers ffa_v1_0_ok).
  - vm_compute. intuition congruence.
  - vm_compute. congruence.
  - left. vm_compute. congruence.
Defined.

Lemma xfer_without_mailbox_rejected_witness :
  let share := FFA_SMC_64 0x73 in
  let '(res', w') :=
    do_ffa_mem_xfer scripted_smc share res_zero
      (regs share 96 96 0 0) (world_unmapped [(reply_success, [])]) in
  res' = ffa_to_smccc_error (-2) ∧
  own w' = host_pages 5 10 ∧ engine_log w' = [] ∧ smc_log w' = [] ∧
  hyp_tx w' = replicate 4096 "000"%byte.
Proof.
  intros share.
  apply (xfer_without_mailbox_rejected scripted_smc share
           res_zero (regs share 96 96 0 0)
           (world_unmapped [(reply_success, [])]) ffa_v1_0_ok).
  - vm_compute. intuition congruence.
  - reflexivity.
Defined.

Lemma reclaim_retrieve_response_witness :
  let w := world_mapped [(reply_fragmented, [])] in
  let '(res', w') :=
    do_ffa_mem_reclaim scripted_smc res_zero
      (regs (FFA_SMC_32 0x77) 7 0 0 0) w in
  res' = ffa_to_smccc_error (-8) ∧
  smc_log w' = [[FFA_SMC_64 0x74; 32; 32; 0; 0; 0; 0; 0]] ∧
  own w' = own w ∧ engine_log w' = [].
Proof.
  intros w.
  pose proof (reclaim_retrieve_response scripted_smc res_zero
                (regs (FFA_SMC_32 0x77) 7 0 0 0) w ffa_v1_0_ok) as Hthm.
  cbv zeta in Hthm. cbn [scripted_smc spmd w world_mapped example_world]
    in Hthm.
  destruct (do_ffa_mem_reclaim _ _ _ _) as [res' w'].
  apply Hthm; vm_compute; congruence.
Defined.

Lemma rxtx_map_outcomes_witness :
  let map := FFA_SMC_64 0x66 in
  let w := world_mapped [] in
  let '(res', w') :=
    do_ffa_rxtx_map scripted_smc
      (regs map 0x1000000 0x1001000 1 0) w in
  res' = ffa_to_smccc_error (-6) ∧
  ffa_tx (host_kvm_ffa w') = ffa_tx (host_kvm_ffa w) ∧
  ffa_rx (host_kvm_ffa w') = ffa_rx (host_kvm_ffa w) ∧
  own w' = own w ∧ engine_log w' = engine_log w ∧ smc_log w' = smc_log w.
Proof.
  intros map w.
  pose proof (rxtx_map_outcomes scripted_smc
                (regs map 0x1000000 0x1001000 1 0) w ffa_v1_0_ok) as Hthm.
  destruct (do_ffa_rxtx_map _ _ _) as [res' w'].
  destruct Hthm as (_ & Hdenied & _).
  apply Hdenied; vm_compute; intuition congruence.
Defined.

(** C7 as stated fails: while a mailbox is mapped, a map request for two
    pages instead of one is not answered "denied" (-6) but "invalid
    parameters" (-2). *)
Lemma rxtx_map_mapped_not_denied :
  let map := FFA_SMC_64 0x66 in
  let w := world_mapped [] in
  let res' := fst (do_ffa_rxtx_map scripted_smc
                     (regs map 0x1000000 0x1001000 2 0) w) in
  ffa_tx (host_kvm_ffa w) ≠ 0 ∧
  res' ≠ ffa_to_smccc_error FFA_RET_DENIED ∧
  res' = ffa_to_smccc_error FFA_RET_INVALID_PARAMETERS.
Proof. vm_compute. repeat split; congruence. Qed.

Lemma unsupported_calls_rejected_witness :
  let msg_send := FFA_SMC_32 0x6E in
  let features := FFA_SMC_32 0x64 in
  let w := world_mapped [] in
  kvm_host_ffa_handler scripted_smc res_zero
    (regs msg_send 0 0 0 0) w
  = (true,
     ffa_set_retval (regs msg_send 0 0 0 0)
       (ffa_to_smccc_error (-1)), w) ∧
  kvm_host_ffa_handler scripted_smc res_zero
    (regs features msg_send 0 0 0) w
  = (true,
     ffa_set_retval (regs features msg_send 0 0 0)
       (ffa_to_smccc_error (-1)), w).
Proof.
  intros msg_send features w.
  assert (Hin : msg_send ∈ unsupported_calls)
    by (vm_compute;
        repeat first [apply list_elem_of_here | apply list_elem_of_further]).
  split.
  - destruct (unsupported_calls_rejected scripted_smc res_zero
                (regs msg_send 0 0 0 0) w msg_send ffa_v1_0_ok)
      as [Hrejected _].
    destruct (Hrejected Hin) as [Hcall _]. by apply Hcall.
  - destruct (unsupported_calls_rejected scripted_smc res_zero
                (regs features msg_send 0 0 0) w msg_send ffa_v1_0_ok)
      as [Hrejected _].
    destruct (Hrejected Hin) as [_ Hquery]. by apply Hquery.
Defined.

(** C8 as stated fails: [FFA_MEM_FRAG_TX] is an FF-A call that the
    dispatcher does not reject; it reports the call as not handled and leaves
    the registers alone, and does the same with a feature query about it. *)
Lemma frag_tx_not_rejected :
  let frag_tx := FFA_SMC_32 0x7B in
  let features := FFA_SMC_32 0x64 in
  let w := world_mapped [] in
  let call := kvm_host_ffa_handler scripted_smc res_zero
                (regs frag_tx 0 0 0 0) w in
  let query := kvm_host_ffa_handler scripted_smc res_zero
                 (regs features frag_tx 0 0 0) w in
  frag_tx = FFA_MEM_FRAG_TX ∧
  is_ffa_call frag_tx = true ∧
  fst (fst call) = false ∧ cpu_reg (snd (fst call)) 0 = frag_tx ∧
  fst (fst query) = false ∧ cpu_reg (snd (fst query)) 0 = features.
Proof. vm_compute. repeat split; congruence. Qed.

Lemma features_query_answers_witness :
  let features := FFA_SMC_32 0x64 in
  let ctxt := regs features (FFA_SMC_64 0x73) 0 0 0 in
  let w := world_mapped [] in
  kvm_host_ffa_handler scripted_smc res_zero ctxt w
  = (true, ffa_set_retval ctxt (SmcccRes (FFA_SMC_32 0x61) 0 0 0), w).
Proof.
  intros features ctxt w.
  destruct (features_query_answers scripted_smc res_zero ctxt w ffa_v1_0_ok)
    as (_ & Htransfer & _); [reflexivity|].
  apply Htransfer.
  vm_compute.
  repeat first [apply list_elem_of_here | apply list_elem_of_further].
Defined.

(** ** The end-to-end scenarios of the specification, run on the instance *)

(** Scenario A: mapping the mailbox succeeds, mapping it again is denied. *)
Example scenario_map_twice :
  let map := regs (FFA_SMC_64 0x66) 0x5000 0x6000 1 0 in
  let first :=
    kvm_host_ffa_handler scripted_smc res_zero map
      (world_unmapped [(reply_success, [])]) in
  let second := kvm_host_ffa_handler scripted_smc res_zero map (snd first) in
  x0_x2 first = (true, FFA_SUCCESS, 0) ∧
  x0_x2 second = (true, FFA_ERROR, u64 FFA_RET_DENIED) ∧
  own (snd second) = own (snd first).
Proof. vm_compute. repeat split. Qed.

(** Scenario B: a lend of one page that the downstream refuses leaves the
    page unshared and returns the downstream's error. *)
Example scenario_lend_refused :
  let descriptor := descriptor_bytes 0 1 48 [(0x5000, 1)] 4096 in
  let w := example_world (host_pages 5 10) mapped descriptor
             [(reply_no_memory, [])] in
  let out := kvm_host_ffa_handler scripted_smc res_zero
               (regs (FFA_SMC_32 0x72) 80 80 0 0) w in
  x0_x2 out = (true, FFA_ERROR, u64 (-3)) ∧
  own (snd out) = own w ∧ own w !! 5 = Some HostOwned ∧
  smc_log (snd out) = [[FFA_SMC_64 0x72; 80; 80; 0; 0; 0; 0; 0]].
Proof. vm_compute. repeat split. Qed.

(** Scenario C: a share with fragment length 10 and total length 20 is
    aborted, and the world is untouched. *)
Example scenario_fragmented_share :
  let w := world_mapped [] in
  let out := kvm_host_ffa_handler scripted_smc res_zero
               (regs (FFA_SMC_64 0x73) 20 10 0 0) w in
  x0_x2 out = (true, FFA_ERROR, u64 FFA_RET_ABORTED) ∧
  own (snd out) = own w ∧ engine_log (snd out) = [] ∧ smc_log (snd out) = [].
Proof. vm_compute. repeat split. Qed.

(** Scenario D: a reclaim whose retrieve response is fragmented is aborted,
    and no reclaim is sent downstream. *)
Example scenario_fragmented_retrieve :
  let w := world_mapped [(reply_fragmented, []); (reply_success, [])] in
  let out := kvm_host_ffa_handler scripted_smc res_zero
               (regs (FFA_SMC_32 0x77) 7 0 0 0) w in
  x0_x2 out = (true, FFA_ERROR, u64 FFA_RET_ABORTED) ∧
  smc_log (snd out) = [[FFA_SMC_64 0x74; 32; 32; 0; 0; 0; 0; 0]] ∧
  own (snd out) = own w.
Proof. vm_compute. repeat split. Qed.

(** A share that the downstream accepts: page 5 and pages 9-10 stay shared,
    and the downstream's result is what the host sees. *)
Example scenario_share_accepted :
  let w := world_mapped [(reply_success, [])] in
  let out := kvm_host_ffa_handler scripted_smc res_zero
               (regs (FFA_SMC_32 0x73) 96 96 0 0) w in
  x0_x2 out = (true, FFA_SUCCESS, 0) ∧
  own (snd out) = set_pages SharedDownstream [5; 9; 10] (own w) ∧
  smc_log (snd out) = [[FFA_SMC_64 0x73; 96; 96; 0; 0; 0; 0; 0]] ∧
  warnings (snd out) = 0%nat.
Proof. vm_compute. repeat split. Qed.
